(** * IFRS 9 Expected Credit Loss engine ([src/ecl_engine.py])

    A shallow embedding of the stage classifier, the scenario loss formula,
    the scenario-weighted aggregator and the portfolio processor.

    The engine is written once, over an interface [PyFloat] holding the
    operations the Python code applies to its [float] values.  Two instances
    are given:

    - [exact]    : rational numbers, the real-number reading of the formulas;
    - [binary64] : IEEE 754 double precision with round-to-nearest-even, the
                   arithmetic CPython runs the code on.

    Python exceptions are values of [exn]; a function that may raise returns
    a [result]. *)

From Stdlib Require Import ZArith QArith Qpower Qminmax Qabs Floats List Bool String.
From Stdlib Require Import Permutation Sorted Lia Lqa DecimalString.
From Stdlib Require OrderedTypeEx.
Import ListNotations.

Set Warnings "-inexact-float".

(** ** Exceptions *)

Inductive exn : Type :=
| ZeroDivisionError
| OverflowError
| KeyError (key : string).

Inductive result (A : Type) : Type :=
| Ok (a : A)
| Raise (e : exn).

Arguments Ok {A} a.
Arguments Raise {A} e.

Definition bind {A B : Type} (c : result A) (k : A -> result B) : result B :=
  match c with
  | Ok a => k a
  | Raise e => Raise e
  end.

Declare Scope py_scope.
Delimit Scope py_scope with py.

Notation "x <- c ;; k" := (bind c (fun x => k))
  (at level 61, c at next level, right associativity) : py_scope.

Local Open Scope py_scope.

(** A [for] loop whose body may raise: the state is threaded through the
    items in order, and the first exception ends the loop. *)
Fixpoint for_each {A S : Type} (body : S -> A -> result S) (items : list A) (s : S)
  : result S :=
  match items with
  | [] => Ok s
  | x :: rest => s' <- body s x ;; for_each body rest s'
  end.

(** [range(lo, hi)]. *)
Definition py_range (lo hi : Z) : list Z :=
  map (fun i => (lo + Z.of_nat i)%Z) (seq 0 (Z.to_nat (hi - lo))).

(** [d[key]] on a dict kept as its items in insertion order. *)
Fixpoint getitem {V : Type} (d : list (string * V)) (key : string) : result V :=
  match d with
  | [] => Raise (KeyError key)
  | (k, v) :: rest => if String.eqb k key then Ok v else getitem rest key
  end.

(** ** The arithmetic of Python floats, as an interface *)

Class PyFloat (F : Type) : Type := {
  (** the decimal literal [m * 10^-k] *)
  f_dec : Z -> nat -> F;
  f_add : F -> F -> F;
  f_sub : F -> F -> F;
  f_mul : F -> F -> F;
  (** the quotient [/] computes once the divisor is known to be non-zero *)
  f_div : F -> F -> F;
  f_is_zero : F -> bool;
  f_lt : F -> F -> bool;
  (** [x ** t] for an [int] exponent *)
  f_pow : F -> Z -> result F;
  (** [round(x, 2)] *)
  f_round2 : F -> F
}.

Notation "x + y" := (f_add x y) : py_scope.
Notation "x - y" := (f_sub x y) : py_scope.
Notation "x * y" := (f_mul x y) : py_scope.
Notation "x <? y" := (f_lt x y) : py_scope.
Notation "x >? y" := (f_lt y x) : py_scope.

(** [x / y]: CPython raises ZeroDivisionError on a zero divisor. *)
Definition truediv {F : Type} `{PyFloat F} (x y : F) : result F :=
  if f_is_zero y then Raise ZeroDivisionError else Ok (f_div x y).

(** [min(a, b)]: the first argument is kept unless the second is smaller. *)
Definition py_min {F : Type} `{PyFloat F} (a b : F) : F :=
  if b <? a then b else a.

(** Rounding the rational [num / den] ([0 < den]) to the nearest integer,
    ties to the even one: the rule of [round] in Python 3. *)
Definition round_half_even (num den : Z) : Z :=
  let q := (num / den)%Z in
  let r := (num mod den)%Z in
  match (2 * r ?= den)%Z with
  | Lt => q
  | Gt => (q + 1)%Z
  | Eq => if Z.even q then q else (q + 1)%Z
  end.

(** *** Exact arithmetic *)

Definition Qltb (x y : Q) : bool :=
  (Qnum x * QDen y <? Qnum y * QDen x)%Z.

Definition Qis_zero (x : Q) : bool := (Qnum x =? 0)%Z.

Definition Qdec (m : Z) (k : nat) : Q := Qmake m (Z.to_pos (10 ^ Z.of_nat k)).

(** A zero base with a negative exponent raises ZeroDivisionError. *)
Definition Qpow (x : Q) (t : Z) : result Q :=
  if Qis_zero x && (t <? 0)%Z then Raise ZeroDivisionError else Ok (Qpower x t).

Definition Qround2 (x : Q) : Q :=
  Qmake (round_half_even (Qnum x * 100) (QDen x)) 100.

#[export] Instance exact : PyFloat Q := {
  f_dec := Qdec;
  f_add := Qplus;
  f_sub := Qminus;
  f_mul := Qmult;
  f_div := Qdiv;
  f_is_zero := Qis_zero;
  f_lt := Qltb;
  f_pow := Qpow;
  f_round2 := Qround2
}.

(** *** IEEE 754 binary64 *)

(** The double nearest to [num / den], with sign [s]: the division of
    [SpecFloat] rounds the exact quotient to nearest, ties to even. *)
Definition nearest_double (s : bool) (num den : positive) : float :=
  SF2Prim (SFdiv prec emax (S754_finite s num 0) (S754_finite false den 0)).

Definition b64_dec (m : Z) (k : nat) : float :=
  let den := Z.to_pos (10 ^ Z.of_nat k) in
  match m with
  | Z0 => PrimFloat.zero
  | Zpos p => nearest_double false p den
  | Zneg p => nearest_double true p den
  end.

Definition b64_is_zero (x : float) : bool := PrimFloat.eqb x PrimFloat.zero.

Definition b64_is_finite (x : float) : bool :=
  match Prim2SF x with
  | S754_finite _ _ _ | S754_zero _ => true
  | _ => false
  end.

(** CPython hands [x ** t] to the C library's [pow] and raises OverflowError
    when a finite base gives an infinite result.  The last bit of [pow] is
    left to the platform; the product below is [x] itself for [t = 1] and
    agrees with [pow] up to rounding for larger exponents. *)
Definition b64_pow_pos (x : float) (t : positive) : float :=
  Pos.iter (fun acc => PrimFloat.mul acc x) PrimFloat.one t.

Definition b64_pow (x : float) (t : Z) : result float :=
  match t with
  | Z0 => Ok PrimFloat.one
  | Zpos p =>
      let y := b64_pow_pos x p in
      if b64_is_finite x && PrimFloat.is_infinity y then Raise OverflowError else Ok y
  | Zneg p =>
      if b64_is_zero x then Raise ZeroDivisionError
      else
        let y := PrimFloat.div PrimFloat.one (b64_pow_pos x p) in
        if b64_is_finite x && PrimFloat.is_infinity y then Raise OverflowError else Ok y
  end.

(** [round(x, 2)] in CPython: the exact binary value of [x] is rounded to two
    decimals, ties to even, and the double nearest to that decimal is
    returned.  Zeros, infinities, NaN and integral values come back
    unchanged; the sign is kept. *)
Definition b64_round2 (x : float) : float :=
  match Prim2SF x with
  | S754_finite s m e =>
      if (0 <=? e)%Z then x
      else
        match round_half_even (Zpos m * 100) (2 ^ (- e)) with
        | Zpos n => nearest_double s n 100
        | _ => SF2Prim (S754_zero s)
        end
  | _ => x
  end.

#[export] Instance binary64 : PyFloat float := {
  f_dec := b64_dec;
  f_add := PrimFloat.add;
  f_sub := PrimFloat.sub;
  f_mul := PrimFloat.mul;
  f_div := PrimFloat.div;
  f_is_zero := b64_is_zero;
  f_lt := PrimFloat.ltb;
  f_pow := b64_pow;
  f_round2 := b64_round2
}.

(** ** The engine *)

Section Engine.

Context {F : Type} `{PyFloat F}.

(** The two module-level dicts, as their items in the order they are
    written: the order in which [.items()] yields them. *)
Definition SCENARIO_WEIGHTS : list (string * F) :=
  [ ("Optimistic"%string, f_dec 30 2);
    ("Base"%string, f_dec 40 2);
    ("Downturn"%string, f_dec 30 2) ].

Definition PD_MULTIPLIERS : list (string * F) :=
  [ ("Optimistic"%string, f_dec 80 2);
    ("Base"%string, f_dec 100 2);
    ("Downturn"%string, f_dec 150 2) ].

(** A loan as [load_portfolio] builds it: two strings, five floats and the
    [int] maturity. *)
Record Loan : Type := {
  Loan_ID : string;
  Sector : string;
  Principal : F;
  Initial_PD : F;
  Current_PD : F;
  Maturity_Years : Z;
  EIR : F;
  LGD : F
}.

(** A row of [process_portfolio]'s output: the eight keys of the loan, then
    ["Stage"] and ["ECL"]. *)
Record ResultRow : Type := {
  out_Loan_ID : string;
  out_Sector : string;
  out_Principal : F;
  out_Initial_PD : F;
  out_Current_PD : F;
  out_Maturity_Years : Z;
  out_EIR : F;
  out_LGD : F;
  Stage : Z;
  ECL : F
}.

(** [assign_stage]: the two tests in order, [and] evaluating the ratio only
    when [initial_pd > 0]. *)
Definition assign_stage (initial_pd current_pd : F) : result Z :=
  if current_pd >? f_dec 5 1 then Ok 3%Z
  else
    significant <-
      (if initial_pd >? f_dec 0 0 then
         ratio <- truediv current_pd initial_pd ;;
         Ok (ratio >? f_dec 30 1)
       else Ok false) ;;
    if significant then Ok 2%Z else Ok 1%Z.

(** One pass of the lifetime loop of [calculate_ecl] for the year [t]; the
    state is [(ecl, cum_survival)].  [**] and [/] may raise. *)
Definition lifetime_year (pd_adj lgd ead eir : F) (st : F * F) (t : Z)
  : result (F * F) :=
  let '(ecl, cum_survival) := st in
  let marginal_pd := cum_survival * pd_adj in
  growth <- f_pow (f_dec 10 1 + eir) t ;;
  discount_factor <- truediv (f_dec 10 1) growth ;;
  let ecl := ecl + marginal_pd * lgd * ead * discount_factor in
  let cum_survival := cum_survival * (f_dec 10 1 - pd_adj) in
  Ok (ecl, cum_survival).

(** [calculate_ecl]: the 12-month product for stage 1, the year loop over
    [range(1, maturity_years + 1)] from [(0.0, 1.0)] otherwise, and
    [round(ecl, 2)] in both cases. *)
Definition calculate_ecl (stage : Z) (current_pd lgd ead : F)
    (maturity_years : Z) (eir pd_multiplier : F) : result F :=
  let pd_adj := py_min (current_pd * pd_multiplier) (f_dec 10 1) in
  ecl <-
    (if (stage =? 1)%Z then
       let pd_12m := pd_adj in
       Ok (pd_12m * lgd * ead)
     else
       st <- for_each (lifetime_year pd_adj lgd ead eir)
               (py_range 1 (maturity_years + 1)) (f_dec 0 1, f_dec 10 1) ;;
       Ok (fst st)) ;;
  Ok (f_round2 ecl).

(** The body of [calculate_weighted_ecl], with the two module-level tables
    it reads as arguments: the loop over the items of the weight table, the
    lookup of the scenario's multiplier (KeyError when absent), and
    [round(weighted_ecl, 2)]. *)
Definition weighted_ecl_tables (weights multipliers : list (string * F))
    (stage : Z) (current_pd lgd ead : F) (maturity_years : Z) (eir : F)
  : result F :=
  weighted_ecl <-
    for_each
      (fun weighted_ecl item =>
         let '(scenario, weight) := item in
         mult <- getitem multipliers scenario ;;
         ecl_scenario <-
           calculate_ecl stage current_pd lgd ead maturity_years eir mult ;;
         Ok (weighted_ecl + weight * ecl_scenario))
      weights (f_dec 0 1) ;;
  Ok (f_round2 weighted_ecl).

(** [calculate_weighted_ecl], on the tables of the module. *)
Definition calculate_weighted_ecl :=
  weighted_ecl_tables SCENARIO_WEIGHTS PD_MULTIPLIERS.

(** The body of the loop of [process_portfolio]: the stage, the weighted ECL
    for that stage, and the row of ten keys. *)
Definition process_loan (weights multipliers : list (string * F)) (loan : Loan)
  : result ResultRow :=
  stage <- assign_stage (Initial_PD loan) (Current_PD loan) ;;
  ecl <- weighted_ecl_tables weights multipliers stage (Current_PD loan)
           (LGD loan) (Principal loan) (Maturity_Years loan) (EIR loan) ;;
  Ok {| out_Loan_ID := Loan_ID loan;
        out_Sector := Sector loan;
        out_Principal := Principal loan;
        out_Initial_PD := Initial_PD loan;
        out_Current_PD := Current_PD loan;
        out_Maturity_Years := Maturity_Years loan;
        out_EIR := EIR loan;
        out_LGD := LGD loan;
        Stage := stage;
        ECL := ecl |}.

(** The loop of [process_portfolio]: each row is appended to [results]; an
    exception ends the run and nothing is returned. *)
Definition process_portfolio_tables (weights multipliers : list (string * F))
    (portfolio : list Loan) : result (list ResultRow) :=
  for_each
    (fun results loan =>
       row <- process_loan weights multipliers loan ;;
       Ok (results ++ [row]))
    portfolio [].

(** [process_portfolio], on the tables of the module. *)
Definition process_portfolio :=
  process_portfolio_tables SCENARIO_WEIGHTS PD_MULTIPLIERS.

End Engine.

Arguments Loan F : clear implicits.
Arguments ResultRow F : clear implicits.

(** From here on arithmetic notations are those of [Q]; the operations of
    the interface are written by name. *)
Local Open Scope Q_scope.

(** * The specification's formulas and the vocabulary of the properties

    [spec_year_loss], [spec_lifetime_ecl], [valid_loan] and
    [scenario_set_valid] follow the words of the specification, to be
    compared with the engine above; the others name parts of the engine. *)

Definition Qsum (l : list Q) : Q := fold_right Qplus 0 l.

(** The lifetime loss of year [t]: the survival up to the start of the year,
    [(1 - pd_adj)^(t-1)], times the default probability, the loss given
    default and the exposure, discounted by [(1 + eir)^t]. *)
Definition spec_year_loss (pd_adj lgd ead eir : Q) (t : Z) : Q :=
  (1 - pd_adj) ^ (t - 1) * pd_adj * lgd * ead / (1 + eir) ^ t.

(** The sum over the years [1 .. maturity_years]. *)
Definition spec_lifetime_ecl (pd_adj lgd ead eir : Q) (maturity_years : Z) : Q :=
  Qsum (map (spec_year_loss pd_adj lgd ead eir) (py_range 1 (maturity_years + 1))).

(** The same sum in the arithmetic of the code, term by term: the survival
    in force during year [t] is 1.0 multiplied by [1 - pd_adj] once for each
    year before [t]; the term of the year is that survival times [pd_adj],
    [lgd], [ead] and the discount factor [1 / (1 + eir)^t]; the terms are
    added to 0.0 from year 1 on.  A power or a quotient that raises ends the
    sum with its exception. *)
Section Formula.

Context {F : Type} `{PyFloat F}.

Local Open Scope py_scope.

Definition spec_survival_before (pd_adj : F) (t : Z) : F :=
  fold_left (fun cum_survival _ => cum_survival * (f_dec 10 1 - pd_adj))
    (py_range 1 t) (f_dec 10 1).

Definition spec_year_term (pd_adj lgd ead eir : F) (t : Z) : result F :=
  growth <- f_pow (f_dec 10 1 + eir) t ;;
  discount_factor <- truediv (f_dec 10 1) growth ;;
  Ok (spec_survival_before pd_adj t * pd_adj * lgd * ead * discount_factor).

Definition spec_lifetime_sum (pd_adj lgd ead eir : F) (maturity_years : Z)
  : result F :=
  for_each
    (fun ecl t => term <- spec_year_term pd_adj lgd ead eir t ;; Ok (ecl + term))
    (py_range 1 (maturity_years + 1)) (f_dec 0 1).

(** One pass of the loop of [calculate_weighted_ecl], on the tables given:
    the lookup of the multiplier, the scenario loss, the weighted addition. *)
Definition scenario_pass (multipliers : list (string * F))
    (stage : Z) (current_pd lgd ead : F) (maturity_years : Z) (eir : F)
    (weighted_ecl : F) (item : string * F) : result F :=
  let '(scenario, weight) := item in
  mult <- getitem multipliers scenario ;;
  ecl_scenario <- calculate_ecl stage current_pd lgd ead maturity_years eir mult ;;
  Ok (weighted_ecl + weight * ecl_scenario).

End Formula.

Local Open Scope Q_scope.

(** When [calculate_ecl] raises in exact arithmetic: on the lifetime branch,
    with at least one year and a discount base of zero, whatever the
    multiplier.  Under binary64 there are other cases: the power can leave
    the range of the doubles (OverflowError) or underflow to 0.0, which the
    division then meets (ZeroDivisionError). *)
Definition lifetime_raises (stage maturity_years : Z) (eir : Q) : bool :=
  negb (stage =? 1)%Z && ((1 <=? maturity_years)%Z && Qis_zero (1 + eir)).

(** The body of the loop of [calculate_weighted_ecl]. *)
Definition scenario_step (multipliers : list (string * Q))
    (stage : Z) (cp lgd ead : Q) (m : Z) (eir : Q)
    (weighted_ecl : Q) (item : string * Q) : result Q :=
  let '(scenario, weight) := item in
  mult <- getitem multipliers scenario ;;
  ecl_scenario <- calculate_ecl stage cp lgd ead m eir mult ;;
  Ok (f_add weighted_ecl (f_mul weight ecl_scenario)).

(** The contribution of one item of the weight table to the sum. *)
Definition scenario_term (multipliers : list (string * Q))
    (stage : Z) (cp lgd ead : Q) (m : Z) (eir : Q) (item : string * Q) : Q :=
  match getitem multipliers (fst item) with
  | Ok mult =>
      match calculate_ecl stage cp lgd ead m eir mult with
      | Ok e => snd item * e
      | Raise _ => 0
      end
  | Raise _ => 0
  end.

(** The eight attributes of the loan, unchanged in the row. *)
Definition carries_forward {F : Type} (loan : Loan F) (row : ResultRow F) : Prop :=
  out_Loan_ID row = Loan_ID loan
  /\ out_Sector row = Sector loan
  /\ out_Principal row = Principal loan
  /\ out_Initial_PD row = Initial_PD loan
  /\ out_Current_PD row = Current_PD loan
  /\ out_Maturity_Years row = Maturity_Years loan
  /\ out_EIR row = EIR loan
  /\ out_LGD row = LGD loan.



(** The invariant the specification asks of a scenario set: the weights add
    up to 1 within [1e-9], and every scenario that has a weight has a
    multiplier. *)
Definition scenario_set_valid (weights multipliers : list (string * Q)) : Prop :=
  Qabs (Qsum (map snd weights) - 1) <= 1 # 1000000000
  /\ forall item, In item weights ->
                  exists mult, getitem multipliers (fst item) = Ok mult.

(** A two-loan portfolio: a performing loan and a credit-impaired one. *)
Definition sample_portfolio : list (Loan Q) :=
  [ {| Loan_ID := "L0001"; Sector := "Retail"; Principal := 100000;
       Initial_PD := 0.02; Current_PD := 0.02; Maturity_Years := 5;
       EIR := 0.03; LGD := 0.45 |};
    {| Loan_ID := "L0002"; Sector := "Energy"; Principal := 250000;
       Initial_PD := 0.05; Current_PD := 0.60; Maturity_Years := 3;
       EIR := 0.04; LGD := 0.40 |} ].

(** The same two loans with their fields as doubles. *)
Definition sample_portfolio_b64 : list (Loan float) :=
  [ {| Loan_ID := "L0001"; Sector := "Retail"; Principal := 100000%float;
       Initial_PD := 0.02%float; Current_PD := 0.02%float; Maturity_Years := 5;
       EIR := 0.03%float; LGD := 0.45%float |};
    {| Loan_ID := "L0002"; Sector := "Energy"; Principal := 250000%float;
       Initial_PD := 0.05%float; Current_PD := 0.60%float; Maturity_Years := 3;
       EIR := 0.04%float; LGD := 0.40%float |} ].

(** * The callers of the engine and the calculations of the dashboard

    The loop of [main] ([src/ecl_engine.py]) and of [step_calculate_ecl]
    ([main.py]) that counts the stages and adds up the ECL, and, from
    [src/ifrs9_viz.py], the unrounded scenario loss and the figures the
    charts are drawn from, all over the same interface [PyFloat].  The
    builtin [sum] is a parameter of the definitions that call it.  Reading
    and writing the CSV files, printing and the drawing itself are left
    out. *)

Section Callers.

Context {F : Type} `{PyFloat F}.

Local Open Scope py_scope.

(** [calculate_ecl_scenario] of the dashboard: the body of [calculate_ecl]
    again, returning [ecl] as it is, without [round]. *)
Definition calculate_ecl_scenario (stage : Z) (current_pd lgd ead : F)
    (maturity_years : Z) (eir pd_multiplier : F) : result F :=
  let pd_adj := py_min (current_pd * pd_multiplier) (f_dec 10 1) in
  if (stage =? 1)%Z then Ok (pd_adj * lgd * ead)
  else
    st <- for_each (lifetime_year pd_adj lgd ead eir)
            (py_range 1 (maturity_years + 1)) (f_dec 0 1, f_dec 10 1) ;;
    Ok (fst st).

(** [stage_counts[key] += 1] on a dict with [int] keys, kept as its items:
    the count of the key is replaced in place; a key the dict does not hold
    raises KeyError (the key is shown in decimal). *)
Fixpoint increment (stage_counts : list (Z * Z)) (key : Z)
  : result (list (Z * Z)) :=
  match stage_counts with
  | [] => Raise (KeyError (NilZero.string_of_int (Z.to_int key)))
  | (k, n) :: rest =>
      if (k =? key)%Z then Ok ((k, (n + 1)%Z) :: rest)
      else rest' <- increment rest key ;; Ok ((k, n) :: rest')
  end.

(** The summary loop of [main] and of [step_calculate_ecl]: from
    [{1: 0, 2: 0, 3: 0}] and [0.0], each row adds one to the count of its
    stage, then its ECL to the total. *)
Definition summary_statistics (results : list (ResultRow F))
  : result (list (Z * Z) * F) :=
  for_each
    (fun st r =>
       let '(stage_counts, total_ecl) := st in
       stage_counts <- increment stage_counts (Stage r) ;;
       Ok (stage_counts, total_ecl + ECL r))
    results ([(1, 0); (2, 0); (3, 0)]%Z, f_dec 0 1).

End Callers.

Local Open Scope Q_scope.

(** The number of rows in stage [k]. *)
Definition stage_count {F : Type} (k : Z) (rows : list (ResultRow F)) : Z :=
  Z.of_nat (List.length (filter (fun r => (Stage r =? k)%Z) rows)).

(** [sorted(set(xs))] on strings: each string once, in increasing order.
    Python orders strings by code point, [String.compare] by byte, which is
    the same order on UTF-8 text. *)
Fixpoint insert_sorted (s : string) (l : list string) : list string :=
  match l with
  | [] => [s]
  | x :: rest =>
      match String.compare s x with
      | Lt => s :: l
      | Eq => l
      | Gt => x :: insert_sorted s rest
      end
  end.

Definition sorted_set (xs : list string) : list string :=
  fold_right insert_sorted [] xs.

(** [d[key] = value] on a dict kept as its items in insertion order: the
    value of a key the dict holds is replaced in place, a new key comes
    last. *)
Fixpoint setitem {V : Type} (d : list (string * V)) (key : string) (value : V)
  : list (string * V) :=
  match d with
  | [] => [(key, value)]
  | (k, v) :: rest =>
      if String.eqb k key then (k, value) :: rest
      else (k, v) :: setitem rest key value
  end.

(** Equality of the keys [(sector, stage)] of the dict [agg]. *)
Definition key_eqb (k k' : string * Z) : bool :=
  String.eqb (fst k) (fst k') && (snd k =? snd k')%Z.

(** [agg.get(key)]: [None] for a key the dict does not hold. *)
Fixpoint agg_get {V : Type} (agg : list (string * Z * V)) (key : string * Z)
  : option V :=
  match agg with
  | [] => None
  | (k, v) :: rest => if key_eqb k key then Some v else agg_get rest key
  end.

(** [agg[key] = value]. *)
Fixpoint agg_set {V : Type} (agg : list (string * Z * V)) (key : string * Z)
    (value : V) : list (string * Z * V) :=
  match agg with
  | [] => [(key, value)]
  | (k, v) :: rest =>
      if key_eqb k key then (k, value) :: rest
      else (k, v) :: agg_set rest key value
  end.

Section Charts.

Context {F : Type} `{PyFloat F}.

Local Open Scope py_scope.

(** The body of the loop of [create_ecl_comparison_bar]: the Base
    (multiplier 1.0) and Downturn (multiplier 1.5) losses of the row, then
    [ecl_base[sector] += base_ecl] and [ecl_downturn[sector] += downturn_ecl]. *)
Definition comparison_row (st : list (string * F) * list (string * F))
    (row : ResultRow F) : result (list (string * F) * list (string * F)) :=
  let '(ecl_base, ecl_downturn) := st in
  let sector := out_Sector row in
  base_ecl <- calculate_ecl_scenario (Stage row) (out_Current_PD row)
                (out_LGD row) (out_Principal row)
                (out_Maturity_Years row) (out_EIR row) (f_dec 10 1) ;;
  downturn_ecl <- calculate_ecl_scenario (Stage row) (out_Current_PD row)
                    (out_LGD row) (out_Principal row)
                    (out_Maturity_Years row) (out_EIR row) (f_dec 15 1) ;;
  b <- getitem ecl_base sector ;;
  let ecl_base := setitem ecl_base sector (b + base_ecl) in
  d <- getitem ecl_downturn sector ;;
  let ecl_downturn := setitem ecl_downturn sector (d + downturn_ecl) in
  Ok (ecl_base, ecl_downturn).

(** [[d[s] for s in sectors]]. *)
Definition heights (d : list (string * F)) (sectors : list string)
  : result (list F) :=
  for_each (fun ys s => y <- getitem d s ;; Ok (ys ++ [y])) sectors [].

(** The part of [create_ecl_comparison_bar] before the drawing: the sectors
    in order, the two dicts [{s: 0.0 for s in sectors}], the loop over the
    rows, and the x and y values of the two bar traces. *)
Definition create_ecl_comparison_bar (data : list (ResultRow F))
  : result (list string * list F * list F) :=
  let sectors := sorted_set (map (@out_Sector F) data) in
  let ecl_base := map (fun s => (s, f_dec 0 1)) sectors in
  let ecl_downturn := map (fun s => (s, f_dec 0 1)) sectors in
  st <- for_each comparison_row data (ecl_base, ecl_downturn) ;;
  let '(ecl_base, ecl_downturn) := st in
  y_base <- heights ecl_base sectors ;;
  y_downturn <- heights ecl_downturn sectors ;;
  Ok (sectors, y_base, y_downturn).

(** The first three lines of [create_kpi_cards], also found in
    [create_dashboard]: the total of the provisions, the total exposure, and
    the coverage ratio in percent.  [py_sum] stands for the builtin [sum]
    on a list of floats, whose additions are left to the interpreter (one
    after the other up to CPython 3.11, with compensation of the rounding
    errors from 3.12 on).  The integers 0 and 100 of the code are the floats
    of the same value. *)
Definition kpi_values (py_sum : list F -> F) (data : list (ResultRow F))
  : result (F * F) :=
  let total_provisions := py_sum (map (@ECL F) data) in
  let total_exposure := py_sum (map (@out_Principal F) data) in
  coverage_ratio <-
    (if total_exposure >? f_dec 0 1 then
       q <- truediv total_provisions total_exposure ;; Ok (q * f_dec 100 0)
     else Ok (f_dec 0 1)) ;;
  Ok (total_provisions, coverage_ratio).

(** [agg[key] = agg.get(key, 0) + row["Principal"]] for the key of the row. *)
Definition aggregate_row (agg : list (string * Z * F)) (row : ResultRow F)
  : list (string * Z * F) :=
  let key := (out_Sector row, Stage row) in
  agg_set agg key
    (match agg_get agg key with Some v => v | None => f_dec 0 1 end
     + out_Principal row).

(** The three lists [labels], [parents] and [values], and one [append] to
    each. *)
Definition append_entry (chart : list string * list string * list F)
    (label parent : string) (value : F) : list string * list string * list F :=
  let '(labels, parents, values) := chart in
  (labels ++ [label], parents ++ [parent], values ++ [value]).

(** The leaf of a sector and a stage: appended when the key is in [agg] with
    a value above 0. *)
Definition append_stage (leaf_label : string -> Z -> string)
    (agg : list (string * Z * F)) (sector : string)
    (chart : list string * list string * list F) (stage : Z)
  : list string * list string * list F :=
  match agg_get agg (sector, stage) with
  | Some v =>
      if v >? f_dec 0 1
      then append_entry chart (leaf_label sector stage) sector v
      else chart
  | None => chart
  end.

(** The rows of a sector. *)
Definition in_sector (s : string) (row : ResultRow F) : bool :=
  String.eqb (out_Sector row) s.

(** The lists the sunburst trace is drawn from, as [create_sunburst] and
    [create_dashboard] build them; the two differ by the label of a leaf. *)
Definition sunburst_lists (py_sum : list F -> F)
    (leaf_label : string -> Z -> string) (data : list (ResultRow F))
  : list string * list string * list F :=
  let agg := fold_left aggregate_row data [] in
  let chart := (["Portfolio"%string], [""%string],
                [py_sum (map (@out_Principal F) data)]) in
  let sectors := sorted_set (map (@out_Sector F) data) in
  let chart :=
    fold_left
      (fun chart sector =>
         let sector_total :=
           py_sum (map (@out_Principal F)
                     (filter (in_sector sector) data)) in
         append_entry chart sector "Portfolio" sector_total)
      sectors chart in
  fold_left
    (fun chart sector =>
       fold_left (append_stage leaf_label agg sector) [1; 2; 3]%Z chart)
    sectors chart.

(** [f"Stage {stage}"]. *)
Definition create_sunburst (py_sum : list F -> F) (data : list (ResultRow F))
  : list string * list string * list F :=
  sunburst_lists py_sum
    (fun _ stage => String.append "Stage " (NilZero.string_of_int (Z.to_int stage)))
    data.

(** [f"{sector} - Stage {stage}"]. *)
Definition create_dashboard_sunburst (py_sum : list F -> F)
    (data : list (ResultRow F)) : list string * list string * list F :=
  sunburst_lists py_sum
    (fun sector stage =>
       String.append sector
         (String.append " - Stage " (NilZero.string_of_int (Z.to_int stage))))
    data.

(** The two losses the loop of the chart computes for a row. *)
Definition base_loss (row : ResultRow F) : result F :=
  calculate_ecl_scenario (Stage row) (out_Current_PD row) (out_LGD row)
    (out_Principal row) (out_Maturity_Years row) (out_EIR row) (f_dec 10 1).

Definition downturn_loss (row : ResultRow F) : result F :=
  calculate_ecl_scenario (Stage row) (out_Current_PD row) (out_LGD row)
    (out_Principal row) (out_Maturity_Years row) (out_EIR row) (f_dec 15 1).

(** The bar of a sector, from the rows paired with their losses: the losses
    of the rows of the sector, in the order of the data, added to 0.0. *)
Definition sector_bar (s : string) (losses : list (ResultRow F * F)) : F :=
  fold_left f_add
    (map snd (filter (fun rl => in_sector s (fst rl)) losses)) (f_dec 0 1).

(** The rows of a sector and a stage, and their principals added to 0.0 in
    the order of the data. *)
Definition has_key (key : string * Z) (row : ResultRow F) : bool :=
  key_eqb (out_Sector row, Stage row) key.

Definition key_total (key : string * Z) (data : list (ResultRow F)) : F :=
  fold_left f_add (map (@out_Principal F) (filter (has_key key) data))
    (f_dec 0 1).

(** The keys that get a leaf: the sectors in order, for each the stages 1,
    2, 3 in order, kept when a row has the key and the total is above 0. *)
Definition leaf_keys (data : list (ResultRow F)) : list (string * Z) :=
  filter
    (fun key => existsb (has_key key) data && (key_total key data >? f_dec 0 1))
    (flat_map (fun s => map (pair s) [1; 2; 3]%Z)
       (sorted_set (map (@out_Sector F) data))).

End Charts.

Local Open Scope Q_scope.

(** The strict order of [sorted]. *)
Definition str_lt (a b : string) : Prop := String.compare a b = Lt.

(** Two rows of a results file, as doubles: a performing loan and a
    credit-impaired one with two years left. *)
Definition sample_results_b64 : list (ResultRow float) :=
  [ {| out_Loan_ID := "L0001"; out_Sector := "Retail";
       out_Principal := 100000%float; out_Initial_PD := 0.02%float;
       out_Current_PD := 0.02%float; out_Maturity_Years := 5;
       out_EIR := 0.03%float; out_LGD := 0.45%float;
       Stage := 1; ECL := 981%float |};
    {| out_Loan_ID := "L0002"; out_Sector := "Energy";
       out_Principal := 250000%float; out_Initial_PD := 0.05%float;
       out_Current_PD := 0.60%float; out_Maturity_Years := 2;
       out_EIR := 0.04%float; out_LGD := 0.40%float;
       Stage := 3; ECL := 81179.74%float |} ].

(** * Properties *)

(** ** Rounding to the nearest integer, ties to even *)

Lemma round_half_even_bounds (num den : Z) :
  (0 < den)%Z ->
  ((2 * round_half_even num den - 1) * den <= 2 * num
   <= (2 * round_half_even num den + 1) * den)%Z.
Proof.
  intros Hden. unfold round_half_even.
  pose proof (Z.div_mod num den ltac:(lia)) as Hdm.
  pose proof (Z.mod_pos_bound num den Hden) as Hr.
  destruct (Z.compare_spec (2 * (num mod den)) den) as [Heq | Hlt | Hgt];
    [destruct (Z.even (num / den)) | | ]; nia.
Qed.

(** On a tie the even neighbour is taken, whichever side it is on. *)
Lemma round_half_even_tie_above (num den : Z) :
  (0 < den)%Z ->
  (2 * num = (2 * round_half_even num den + 1) * den)%Z ->
  Z.even (round_half_even num den) = true.
Proof.
  intros Hden. unfold round_half_even.
  pose proof (Z.div_mod num den ltac:(lia)) as Hdm.
  pose proof (Z.mod_pos_bound num den Hden) as Hr.
  destruct (Z.compare_spec (2 * (num mod den)) den) as [Heq | Hlt | Hgt].
  - destruct (Z.even (num / den)) eqn:Hq; [intros _; exact Hq | nia].
  - nia.
  - nia.
Qed.

Lemma round_half_even_tie_below (num den : Z) :
  (0 < den)%Z ->
  (2 * num = (2 * round_half_even num den - 1) * den)%Z ->
  Z.even (round_half_even num den) = true.
Proof.
  intros Hden. unfold round_half_even.
  pose proof (Z.div_mod num den ltac:(lia)) as Hdm.
  pose proof (Z.mod_pos_bound num den Hden) as Hr.
  destruct (Z.compare_spec (2 * (num mod den)) den) as [Heq | Hlt | Hgt].
  - destruct (Z.even (num / den)) eqn:Hq; [nia | ].
    intros _. rewrite Z.even_add, Hq. reflexivity.
  - nia.
  - nia.
Qed.

Lemma round_half_even_mono (n1 d1 n2 d2 : Z) :
  (0 < d1)%Z -> (0 < d2)%Z -> (n1 * d2 <= n2 * d1)%Z ->
  (round_half_even n1 d1 <= round_half_even n2 d2)%Z.
Proof.
  intros Hd1 Hd2 Hle.
  pose proof (round_half_even_bounds n1 d1 Hd1) as [Hlo1 _].
  pose proof (round_half_even_bounds n2 d2 Hd2) as [_ Hhi2].
  pose proof (round_half_even_tie_below n1 d1 Hd1) as Ht1.
  pose proof (round_half_even_tie_above n2 d2 Hd2) as Ht2.
  set (a := round_half_even n1 d1) in *.
  set (b := round_half_even n2 d2) in *.
  destruct (Z_le_gt_dec a b) as [Hab | Hab]; [exact Hab | exfalso].
  assert (H1 : ((2 * a - 1) * d1 * d2 <= 2 * n1 * d2)%Z)
    by (apply Z.mul_le_mono_nonneg_r; lia).
  assert (H2 : (2 * n2 * d1 <= (2 * b + 1) * d2 * d1)%Z)
    by (apply Z.mul_le_mono_nonneg_r; lia).
  assert (Hd : (0 < d1 * d2)%Z) by lia.
  assert (Hchain : ((2 * a - 1) * (d1 * d2) <= (2 * b + 1) * (d1 * d2))%Z) by lia.
  apply Z.mul_le_mono_pos_r in Hchain; [ | exact Hd].
  assert (Ha : a = (b + 1)%Z) by lia.
  assert (E1 : ((2 * a - 1) * d1 * d2 = 2 * n1 * d2)%Z) by (subst a; nia).
  assert (E2 : (2 * n2 * d1 = (2 * b + 1) * d2 * d1)%Z) by (subst a; nia).
  apply Z.mul_cancel_r in E1; [ | lia].
  apply Z.mul_cancel_r in E2; [ | lia].
  specialize (Ht1 (eq_sym E1)). specialize (Ht2 E2).
  rewrite Ha, Z.even_add, Ht2 in Ht1. discriminate.
Qed.

(** ** Exact arithmetic: the operations against the order of [Q] *)

(** Unfolds the operations of the interface at the instance [exact]. *)
Ltac exact_arith :=
  cbn [f_dec f_add f_sub f_mul f_div f_is_zero f_lt f_pow f_round2 exact].

Lemma Qltb_lt (x y : Q) : Qltb x y = true <-> x < y.
Proof. unfold Qltb, Qlt. apply Z.ltb_lt. Qed.

Lemma Qltb_ge (x y : Q) : Qltb x y = false <-> y <= x.
Proof. unfold Qltb, Qle. rewrite Z.ltb_ge. reflexivity. Qed.

Lemma Qis_zero_true (x : Q) : Qis_zero x = true <-> x == 0.
Proof. unfold Qis_zero, Qeq. simpl. rewrite Z.eqb_eq. lia. Qed.

Lemma Qis_zero_false (x : Q) : Qis_zero x = false <-> ~ x == 0.
Proof.
  rewrite <- Qis_zero_true. destruct (Qis_zero x); split; congruence.
Qed.


Lemma Qround2_compat (x y : Q) : x == y -> Qround2 x = Qround2 y.
Proof.
  intros Hxy. unfold Qround2. f_equal.
  apply Z.le_antisymm; apply round_half_even_mono; try lia;
    unfold Qeq in Hxy; nia.
Qed.


(** ** The binary64 instance on known values *)

(** Decimal literals are read to the nearest double, as the literals of
    Rocq are. *)
Example b64_dec_literals :
  b64_dec 30 2 = 0.3%float /\ b64_dec 40 2 = 0.4%float
  /\ b64_dec 80 2 = 0.8%float /\ b64_dec 100 2 = 1%float
  /\ b64_dec 150 2 = 1.5%float /\ b64_dec 10 1 = 1%float
  /\ b64_dec 0 1 = 0%float.
Proof. repeat split. Qed.

(** [round(x, 2)] on the textbook cases of Python: 2.675 is stored below
    the tie and goes down, 0.125 and 0.375 are exact ties and go to the even
    cent, and a negative value below half a cent keeps its sign. *)
Example b64_round2_known_values :
  b64_round2 2.675 = 2.67%float /\ b64_round2 0.125 = 0.12%float
  /\ b64_round2 0.375 = 0.38%float /\ b64_round2 1.005 = 1%float
  /\ b64_round2 900.0000000000001 = 900%float
  /\ b64_round2 (-0.001) = (-0)%float /\ b64_round2 1e22 = 1e22%float.
Proof. repeat split. Qed.

(** [x ** 1] is [x]; an overflow and a zero base with a negative exponent
    raise. *)
Example b64_pow_known_values :
  b64_pow 1.03 1 = Ok 1.03%float
  /\ b64_pow 1e200 2 = Raise OverflowError
  /\ b64_pow 0 (-1) = Raise ZeroDivisionError.
Proof. repeat split. Qed.

(** ** C1: the stage classifier *)

(** The decimal literals of [assign_stage], in both arithmetics. *)
Lemma Qdec_values :
  Qdec 5 1 = 5 # 10 /\ Qdec 0 0 = 0 # 1 /\ Qdec 30 1 = 30 # 10.
Proof. repeat split. Qed.

Lemma b64_dec_values :
  b64_dec 5 1 = 0.5%float /\ b64_dec 0 0 = 0%float /\ b64_dec 30 1 = 3%float.
Proof. repeat split. Qed.

Lemma assign_stage_exact (initial_pd current_pd : Q) :
  assign_stage initial_pd current_pd =
  Ok (if Qltb (5 # 10) current_pd then 3
      else if Qltb 0 initial_pd && Qltb (30 # 10) (current_pd / initial_pd)
           then 2 else 1)%Z.
Proof.
  unfold assign_stage, truediv. exact_arith.
  destruct Qdec_values as (-> & -> & ->).
  destruct (Qltb (5 # 10) current_pd); [reflexivity | ].
  destruct (Qltb 0 initial_pd) eqn:Hpos; [ | reflexivity].
  assert (Hnz : Qis_zero initial_pd = false).
  { apply Qis_zero_false. apply Qltb_lt in Hpos. intros E. rewrite E in Hpos.
    discriminate. }
  rewrite Hnz. cbn [bind andb].
  destruct (Qltb (30 # 10) (current_pd / initial_pd)); reflexivity.
Qed.

(** A double above zero is not a zero divisor. *)
Lemma b64_positive_not_zero (x : float) :
  PrimFloat.ltb 0 x = true -> b64_is_zero x = false.
Proof.
  unfold b64_is_zero.
  rewrite FloatAxioms.ltb_spec, FloatAxioms.eqb_spec. unfold SFltb, SFeqb.
  destruct (Prim2SF x) as [s | s | | s m e]; cbn; try discriminate;
    destruct s; cbn; try discriminate; reflexivity.
Qed.

Lemma assign_stage_binary64 (initial_pd current_pd : float) :
  assign_stage initial_pd current_pd =
  Ok (if PrimFloat.ltb 0.5 current_pd then 3
      else if PrimFloat.ltb 0 initial_pd
              && PrimFloat.ltb 3 (PrimFloat.div current_pd initial_pd)
           then 2 else 1)%Z.
Proof.
  unfold assign_stage, truediv. cbn [f_lt f_dec f_is_zero f_div binary64].
  destruct b64_dec_values as (-> & -> & ->).
  destruct (PrimFloat.ltb 0.5 current_pd); [reflexivity | ].
  destruct (PrimFloat.ltb 0 initial_pd) eqn:Hpos; [ | reflexivity].
  rewrite (b64_positive_not_zero _ Hpos). cbn [bind andb].
  destruct (PrimFloat.ltb 3 (PrimFloat.div current_pd initial_pd)); reflexivity.
Qed.

(** C1.  [assign_stage] never raises and returns 3 when [current_pd > 0.5];
    otherwise 2 when [initial_pd > 0] and [current_pd / initial_pd > 3];
    otherwise 1.  Both tests are strict: [current_pd = 0.5] is not Stage 3 and
    a ratio of exactly 3 is not Stage 2; with [initial_pd = 0] the ratio test
    is skipped.  Stated over the rationals with the order of [Q], and over
    binary64 with the comparisons of IEEE 754. *)
Theorem C1_assign_stage_rules :
  (forall initial_pd current_pd : Q,
      (0.5 < current_pd -> assign_stage initial_pd current_pd = Ok 3%Z)
      /\ (~ 0.5 < current_pd -> 0 < initial_pd ->
          3 < current_pd / initial_pd ->
          assign_stage initial_pd current_pd = Ok 2%Z)
      /\ (~ 0.5 < current_pd ->
          ~ (0 < initial_pd /\ 3 < current_pd / initial_pd) ->
          assign_stage initial_pd current_pd = Ok 1%Z)
      /\ (current_pd == 0.5 -> assign_stage initial_pd current_pd <> Ok 3%Z)
      /\ (current_pd / initial_pd == 3 ->
          assign_stage initial_pd current_pd <> Ok 2%Z)
      /\ (initial_pd == 0 ->
          assign_stage initial_pd current_pd
          = Ok (if Qltb 0.5 current_pd then 3 else 1)%Z))
  /\ (forall initial_pd current_pd : float,
         assign_stage initial_pd current_pd =
         Ok (if PrimFloat.ltb 0.5 current_pd then 3
             else if PrimFloat.ltb 0 initial_pd
                     && PrimFloat.ltb 3 (PrimFloat.div current_pd initial_pd)
                  then 2 else 1)%Z).
Proof.
  split; [ | exact assign_stage_binary64].
  intros i c. rewrite assign_stage_exact.
  change (5 # 10) with 0.5. change (30 # 10) with 3.0.
  destruct (Qltb 0.5 c) eqn:H3.
  - apply Qltb_lt in H3.
    repeat split; intros; try reflexivity; try contradiction.
    + exfalso. lra.
    + discriminate.
  - apply Qltb_ge in H3.
    destruct (Qltb 0 i) eqn:Hi; [apply Qltb_lt in Hi | apply Qltb_ge in Hi];
      cbn [andb].
    + destruct (Qltb 3.0 (c / i)) eqn:Hr;
        [apply Qltb_lt in Hr | apply Qltb_ge in Hr].
      * repeat split; intros; try reflexivity; try discriminate.
        -- exfalso. lra.
        -- exfalso. apply H0. split; [exact Hi | lra].
        -- exfalso. lra.
        -- exfalso. lra.
      * repeat split; intros; try reflexivity; try discriminate.
        -- exfalso. lra.
        -- exfalso. lra.
    + repeat split; intros; try reflexivity; try discriminate.
      * exfalso. lra.
      * exfalso. lra.
Qed.

(** ** C2: the scenario loss formula *)

Lemma Qsum_cons (x : Q) (l : list Q) : Qsum (x :: l) = x + Qsum l.
Proof. reflexivity. Qed.

Lemma spec_year_loss_compat (pd pd' lgd ead eir : Q) (t : Z) :
  pd == pd' -> spec_year_loss pd lgd ead eir t == spec_year_loss pd' lgd ead eir t.
Proof. intros E. unfold spec_year_loss. now rewrite E. Qed.

Lemma spec_lifetime_ecl_compat (pd pd' lgd ead eir : Q) (m : Z) :
  pd == pd' -> spec_lifetime_ecl pd lgd ead eir m == spec_lifetime_ecl pd' lgd ead eir m.
Proof.
  intros E. unfold spec_lifetime_ecl.
  induction (py_range 1 (m + 1)) as [ | t ts IH]; cbn [map].
  - reflexivity.
  - rewrite !Qsum_cons, IH.
    now rewrite (spec_year_loss_compat pd pd' lgd ead eir t E).
Qed.

(** The years of the loop: [1, 2, ..., maturity_years]. *)
Lemma py_range_years (m : Z) :
  py_range 1 (m + 1) = map (fun i => (1 + Z.of_nat i)%Z) (seq 0 (Z.to_nat m)).
Proof. unfold py_range. now replace (m + 1 - 1)%Z with m by lia. Qed.

(** One year of the loop when the discount base is not zero: no exception,
    and the state moves as the formula says. *)
Lemma lifetime_year_exact (pd lgd ead eir ecl cs : Q) (t : Z) :
  ~ 1 + eir == 0 ->
  lifetime_year pd lgd ead eir (ecl, cs) t =
  Ok (ecl + cs * pd * lgd * ead * ((10 # 10) / ((10 # 10) + eir) ^ t),
      cs * ((10 # 10) - pd)).
Proof.
  intros Hnz. unfold lifetime_year, truediv.
  exact_arith.
  change (Qdec 10 1) with (10 # 10). unfold Qpow.
  assert (Hb : ~ (10 # 10) + eir == 0).
  { intros E. apply Hnz. rewrite <- E. ring. }
  apply Qis_zero_false in Hb as Hb'. rewrite Hb'. cbn [andb bind].
  assert (Hp : Qis_zero (((10 # 10) + eir) ^ t) = false).
  { apply Qis_zero_false. now apply Qpower_not_0. }
  rewrite Hp. reflexivity.
Qed.

(** The years [a+1 .. a+n] of the loop, entered with the survival
    [(1 - pd)^a], add the specification's losses of those years. *)
Lemma lifetime_loop_exact (pd lgd ead eir : Q) :
  ~ 1 + eir == 0 ->
  forall (n a : nat) (ecl cs : Q),
    cs == (1 - pd) ^ Z.of_nat a ->
    exists ecl' cs',
      for_each (lifetime_year pd lgd ead eir)
        (map (fun i => (1 + Z.of_nat i)%Z) (seq a n)) (ecl, cs) = Ok (ecl', cs')
      /\ ecl' == ecl + Qsum (map (spec_year_loss pd lgd ead eir)
                              (map (fun i => (1 + Z.of_nat i)%Z) (seq a n)))
      /\ cs' == (1 - pd) ^ Z.of_nat (a + n).
Proof.
  intros Hnz n. induction n as [ | n IH]; intros a ecl cs Hcs.
  - exists ecl, cs. cbn [seq map for_each]. change (Qsum []) with 0.
    repeat split; [ring | now rewrite Nat.add_0_r].
  - cbn [seq map for_each]. rewrite (lifetime_year_exact _ _ _ _ _ _ _ Hnz).
    cbn [bind].
    destruct (IH (S a)
                (ecl + cs * pd * lgd * ead * ((10 # 10) / ((10 # 10) + eir) ^ (1 + Z.of_nat a)))
                (cs * ((10 # 10) - pd))) as (ecl' & cs' & Hrun & Hecl & Hcs').
    { rewrite Hcs. rewrite Nat2Z.inj_succ. unfold Z.succ.
      rewrite Qpower_plus' by lia. rewrite Qpower_1_r.
      setoid_replace ((10 # 10) - pd) with (1 - pd) by ring. reflexivity. }
    exists ecl', cs'. split; [exact Hrun | split].
    + rewrite Hecl, Qsum_cons.
      unfold spec_year_loss at 2.
      replace (1 + Z.of_nat a - 1)%Z with (Z.of_nat a) by lia.
      rewrite Hcs.
      setoid_replace ((10 # 10) + eir) with (1 + eir) by ring.
      assert (Hpw : ~ (1 + eir) ^ (1 + Z.of_nat a) == 0) by now apply Qpower_not_0.
      field. exact Hpw.
    + rewrite Hcs'. replace (S a + n)%nat with (a + S n)%nat by lia. reflexivity.
Qed.

(** A discount base of zero makes the first year divide by zero. *)
Lemma lifetime_loop_zero_base (pd lgd ead eir : Q) (m : Z) (st : Q * Q) :
  1 + eir == 0 -> (1 <= m)%Z ->
  for_each (lifetime_year pd lgd ead eir) (py_range 1 (m + 1)) st
  = Raise ZeroDivisionError.
Proof.
  intros Hz Hm. unfold py_range.
  replace (m + 1 - 1)%Z with m by lia.
  destruct (Z.to_nat m) as [ | k] eqn:Hk; [lia | ].
  destruct st as [ecl cs]. cbn [seq map for_each].
  unfold lifetime_year, truediv.
  exact_arith.
  change (Qdec 10 1) with (10 # 10). unfold Qpow.
  change (1 + Z.of_nat 0 <? 0)%Z with false. rewrite andb_false_r. cbn [bind].
  assert (Hp : Qis_zero (((10 # 10) + eir) ^ (1 + Z.of_nat 0)) = true).
  { apply Qis_zero_true. change (1 + Z.of_nat 0)%Z with 1%Z.
    rewrite Qpower_1_r. rewrite <- Hz. ring. }
  rewrite Hp. reflexivity.
Qed.

Lemma py_min_exact (a : Q) : py_min a (Qdec 10 1) == Qmin a 1.
Proof.
  unfold py_min. cbn [f_lt exact]. change (Qdec 10 1) with (10 # 10).
  destruct (Qltb (10 # 10) a) eqn:Hlt.
  - apply Qltb_lt in Hlt. rewrite Q.min_r by lra. reflexivity.
  - apply Qltb_ge in Hlt. rewrite Q.min_l by lra. reflexivity.
Qed.

(** [calculate_ecl] against the specification's formula. *)
Lemma calculate_ecl_exact
    (stage : Z) (current_pd lgd ead : Q) (maturity_years : Z)
    (eir pd_multiplier : Q) :
  calculate_ecl stage current_pd lgd ead maturity_years eir pd_multiplier =
  if (stage =? 1)%Z
  then Ok (Qround2 (Qmin (current_pd * pd_multiplier) 1 * lgd * ead))
  else if (1 <=? maturity_years)%Z && Qis_zero (1 + eir)
       then Raise ZeroDivisionError
       else Ok (Qround2 (spec_lifetime_ecl (Qmin (current_pd * pd_multiplier) 1)
                           lgd ead eir maturity_years)).
Proof.
  rename current_pd into cp, maturity_years into m, pd_multiplier into mult.
  set (pd_adj := Qmin (cp * mult) 1).
  unfold calculate_ecl. exact_arith.
  pose proof (py_min_exact (cp * mult)) as Hmin. fold pd_adj in Hmin.
  set (pd := py_min (cp * mult) (Qdec 10 1)) in *.
  destruct (stage =? 1)%Z.
  - cbn [bind]. f_equal. apply Qround2_compat. now rewrite Hmin.
  - destruct (Qis_zero (1 + eir)) eqn:Hz.
    + apply Qis_zero_true in Hz.
      destruct (1 <=? m)%Z eqn:Hm; cbn [andb].
      * apply Z.leb_le in Hm.
        rewrite (lifetime_loop_zero_base pd lgd ead eir m _ Hz Hm). reflexivity.
      * apply Z.leb_gt in Hm. unfold spec_lifetime_ecl, py_range.
        replace (Z.to_nat (m + 1 - 1)) with 0%nat by lia. reflexivity.
    + rewrite andb_false_r. apply Qis_zero_false in Hz.
      destruct (lifetime_loop_exact pd lgd ead eir Hz (Z.to_nat m) 0
                  (Qdec 0 1) (Qdec 10 1)) as (ecl' & cs' & Hrun & Hecl & _).
      { reflexivity. }
      rewrite <- py_range_years in Hrun, Hecl.
      rewrite Hrun. cbn [bind fst]. f_equal. apply Qround2_compat.
      rewrite Hecl. fold (spec_lifetime_ecl pd lgd ead eir m).
      rewrite (spec_lifetime_ecl_compat pd pd_adj lgd ead eir m Hmin).
      change (Qdec 0 1) with (0 # 10).
      setoid_replace (0 # 10) with 0 by reflexivity. apply Qplus_0_l.
Qed.

(** The survival in force during the year after [t]. *)
Lemma cum_survival_before_succ (F : Type) (A : PyFloat F) (pd_adj : F) (a : nat) :
  spec_survival_before pd_adj (1 + Z.of_nat (S a))
  = f_mul (spec_survival_before pd_adj (1 + Z.of_nat a))
      (f_sub (f_dec 10 1) pd_adj).
Proof.
  unfold spec_survival_before, py_range.
  replace (Z.to_nat (1 + Z.of_nat (S a) - 1)) with (S a) by lia.
  replace (Z.to_nat (1 + Z.of_nat a - 1)) with a by lia.
  rewrite seq_S, map_app, fold_left_app. reflexivity.
Qed.

(** The loop of the code, entered at year [a + 1] with the survival of that
    year, adds the terms of the years [a+1 .. a+n]; its exceptions are those
    of the terms, in the order of the years. *)
Lemma lifetime_loop_terms (F : Type) (A : PyFloat F) (pd_adj lgd ead eir : F) :
  forall (n a : nat) (ecl : F),
    for_each (lifetime_year pd_adj lgd ead eir)
      (map (fun i => (1 + Z.of_nat i)%Z) (seq a n))
      (ecl, spec_survival_before pd_adj (1 + Z.of_nat a))
    = bind (for_each
              (fun ecl t => bind (spec_year_term pd_adj lgd ead eir t)
                              (fun term => Ok (f_add ecl term)))
              (map (fun i => (1 + Z.of_nat i)%Z) (seq a n)) ecl)
        (fun ecl' =>
           Ok (ecl', spec_survival_before pd_adj (1 + Z.of_nat (a + n)))).
Proof.
  induction n as [ | n IH]; intros a ecl; cbn [seq map for_each].
  - cbn [bind]. now rewrite Nat.add_0_r.
  - unfold lifetime_year at 1, spec_year_term at 1.
    destruct (f_pow (f_add (f_dec 10 1) eir) (1 + Z.of_nat a)) as [growth | e];
      cbn [bind]; [ | reflexivity].
    destruct (truediv (f_dec 10 1) growth) as [discount_factor | e];
      cbn [bind]; [ | reflexivity].
    rewrite <- cum_survival_before_succ, IH.
    now replace (S a + n)%nat with (a + S n)%nat by lia.
Qed.

(** [calculate_ecl] as the claim words it, in any arithmetic. *)
Lemma calculate_ecl_terms (F : Type) (A : PyFloat F)
    (stage : Z) (current_pd lgd ead : F) (maturity_years : Z)
    (eir pd_multiplier : F) :
  calculate_ecl stage current_pd lgd ead maturity_years eir pd_multiplier =
  let pd_adj := py_min (f_mul current_pd pd_multiplier) (f_dec 10 1) in
  if (stage =? 1)%Z
  then Ok (f_round2 (f_mul (f_mul pd_adj lgd) ead))
  else bind (spec_lifetime_sum pd_adj lgd ead eir maturity_years)
         (fun ecl => Ok (f_round2 ecl)).
Proof.
  unfold calculate_ecl. cbv zeta.
  destruct (stage =? 1)%Z; [reflexivity | ].
  unfold spec_lifetime_sum. rewrite py_range_years.
  change (f_dec 10 1)
    with (spec_survival_before
            (py_min (f_mul current_pd pd_multiplier) (f_dec 10 1))
            (1 + Z.of_nat 0)) at 2.
  rewrite lifetime_loop_terms.
  destruct (for_each _ _ (f_dec 0 1)) as [ecl | e]; reflexivity.
Qed.

(** C2.  In any arithmetic, with
    [pd_adj = min(current_pd * pd_multiplier, 1.0)]: for stage 1
    [calculate_ecl] returns [round(pd_adj * lgd * ead, 2)]; for any other
    stage it returns the rounded sum over the years
    [t = 1 .. maturity_years], added in that order to 0.0, of
    [cum_survival * pd_adj * lgd * ead * (1 / (1 + eir)^t)], where
    [cum_survival] is 1.0 for the first year and is multiplied by
    [1 - pd_adj] after each year; every operation is the arithmetic's own,
    and a power or a division that raises ends the call with its exception.
    In exact arithmetic that sum is the one of the specification,
    [(1 - pd_adj)^(t-1) * pd_adj * lgd * ead / (1 + eir)^t] over the years,
    and the only exception is the division by zero of [1 + eir = 0]. *)
Theorem C2_calculate_ecl_formula :
  (forall (F : Type) (A : PyFloat F) (stage : Z) (current_pd lgd ead : F)
          (maturity_years : Z) (eir pd_multiplier : F),
      let pd_adj := py_min (f_mul current_pd pd_multiplier) (f_dec 10 1) in
      calculate_ecl stage current_pd lgd ead maturity_years eir pd_multiplier
      = if (stage =? 1)%Z
        then Ok (f_round2 (f_mul (f_mul pd_adj lgd) ead))
        else bind (spec_lifetime_sum pd_adj lgd ead eir maturity_years)
               (fun ecl => Ok (f_round2 ecl)))
  /\ (forall (stage : Z) (current_pd lgd ead : Q) (maturity_years : Z)
             (eir pd_multiplier : Q),
         let pd_adj := Qmin (current_pd * pd_multiplier) 1 in
         calculate_ecl stage current_pd lgd ead maturity_years eir pd_multiplier =
         if (stage =? 1)%Z then Ok (Qround2 (pd_adj * lgd * ead))
         else if (1 <=? maturity_years)%Z && Qis_zero (1 + eir)
              then Raise ZeroDivisionError
              else Ok (Qround2
                         (spec_lifetime_ecl pd_adj lgd ead eir maturity_years))).
Proof.
  split.
  - intros F A stage cp lgd ead m eir mult. apply calculate_ecl_terms.
  - intros stage cp lgd ead m eir mult pd_adj. apply calculate_ecl_exact.
Qed.

(** ** C3: the scenario-weighted aggregator *)

(** The loop over [SCENARIO_WEIGHTS] unrolled: each weight meets the
    multiplier of its own scenario, in the order Optimistic, Base, Downturn,
    whatever the arithmetic. *)
Lemma calculate_weighted_ecl_unrolled (F : Type) (A : PyFloat F)
    (stage : Z) (current_pd lgd ead : F) (maturity_years : Z) (eir : F) :
  calculate_weighted_ecl stage current_pd lgd ead maturity_years eir =
  (e_opt <- calculate_ecl stage current_pd lgd ead maturity_years eir (f_dec 80 2) ;;
   e_base <- calculate_ecl stage current_pd lgd ead maturity_years eir (f_dec 100 2) ;;
   e_down <- calculate_ecl stage current_pd lgd ead maturity_years eir (f_dec 150 2) ;;
   Ok (f_round2
         (f_add (f_add (f_add (f_dec 0 1) (f_mul (f_dec 30 2) e_opt))
                       (f_mul (f_dec 40 2) e_base))
                (f_mul (f_dec 30 2) e_down)))).
Proof.
  unfold calculate_weighted_ecl, weighted_ecl_tables, SCENARIO_WEIGHTS,
    PD_MULTIPLIERS.
  cbn [for_each getitem String.eqb Ascii.eqb Bool.eqb bind].
  destruct (calculate_ecl stage current_pd lgd ead maturity_years eir (f_dec 80 2));
    cbn [bind]; [ | reflexivity].
  destruct (calculate_ecl stage current_pd lgd ead maturity_years eir (f_dec 100 2));
    cbn [bind]; [ | reflexivity].
  destruct (calculate_ecl stage current_pd lgd ead maturity_years eir (f_dec 150 2));
    cbn [bind]; reflexivity.
Qed.

(** C3.  [calculate_weighted_ecl] returns the weighted sum of the three
    scenario results, rounded to two decimals: weights 0.30 / 0.40 / 0.30
    with multipliers 0.80 / 1.00 / 1.50 for Optimistic / Base / Downturn.
    In any arithmetic the sum is accumulated from 0.0 in that order; in exact
    arithmetic it is the sum of the three products.  An exception of a
    scenario's [calculate_ecl] is passed on. *)
Theorem C3_calculate_weighted_ecl_sum :
  (forall (F : Type) (A : PyFloat F)
          (stage : Z) (current_pd lgd ead : F) (maturity_years : Z) (eir : F),
      calculate_weighted_ecl stage current_pd lgd ead maturity_years eir =
      (e_opt <- calculate_ecl stage current_pd lgd ead maturity_years eir (f_dec 80 2) ;;
       e_base <- calculate_ecl stage current_pd lgd ead maturity_years eir (f_dec 100 2) ;;
       e_down <- calculate_ecl stage current_pd lgd ead maturity_years eir (f_dec 150 2) ;;
       Ok (f_round2
             (f_add (f_add (f_add (f_dec 0 1) (f_mul (f_dec 30 2) e_opt))
                           (f_mul (f_dec 40 2) e_base))
                    (f_mul (f_dec 30 2) e_down)))))
  /\ (forall (stage : Z) (current_pd lgd ead : Q) (maturity_years : Z) (eir : Q),
         calculate_weighted_ecl stage current_pd lgd ead maturity_years eir =
         (e_opt <- calculate_ecl stage current_pd lgd ead maturity_years eir 0.80 ;;
          e_base <- calculate_ecl stage current_pd lgd ead maturity_years eir 1.00 ;;
          e_down <- calculate_ecl stage current_pd lgd ead maturity_years eir 1.50 ;;
          Ok (Qround2 (Qsum [0.30 * e_opt; 0.40 * e_base; 0.30 * e_down])))).
Proof.
  split; [exact calculate_weighted_ecl_unrolled | ].
  intros stage cp lgd ead m eir. rewrite calculate_weighted_ecl_unrolled.
  exact_arith.
  change (Qdec 80 2) with 0.80. change (Qdec 100 2) with 1.00.
  change (Qdec 150 2) with 1.50. change (Qdec 30 2) with 0.30.
  change (Qdec 40 2) with 0.40. change (Qdec 0 1) with (0 # 10).
  destruct (calculate_ecl stage cp lgd ead m eir 0.80) as [e1 | ];
    cbn [bind]; [ | reflexivity].
  destruct (calculate_ecl stage cp lgd ead m eir 1.00) as [e2 | ];
    cbn [bind]; [ | reflexivity].
  destruct (calculate_ecl stage cp lgd ead m eir 1.50) as [e3 | ];
    cbn [bind]; [ | reflexivity].
  f_equal. apply Qround2_compat. rewrite !Qsum_cons. change (Qsum []) with 0.
  setoid_replace (0 # 10) with 0 by reflexivity. ring.
Qed.

(** ** Exceptions and the weighted loop, in exact arithmetic *)

Lemma calculate_ecl_raises (stage : Z) (cp lgd ead : Q) (m : Z) (eir mult : Q) :
  lifetime_raises stage m eir = true ->
  calculate_ecl stage cp lgd ead m eir mult = Raise ZeroDivisionError.
Proof.
  unfold lifetime_raises. rewrite calculate_ecl_exact.
  destruct (stage =? 1)%Z; cbn [negb andb]; [discriminate | ].
  intros ->. reflexivity.
Qed.

Lemma calculate_ecl_returns (stage : Z) (cp lgd ead : Q) (m : Z) (eir mult : Q) :
  lifetime_raises stage m eir = false ->
  exists e, calculate_ecl stage cp lgd ead m eir mult = Ok e.
Proof.
  unfold lifetime_raises. rewrite calculate_ecl_exact.
  destruct (stage =? 1)%Z; cbn [negb andb]; [eexists; reflexivity | ].
  intros ->. eexists; reflexivity.
Qed.

Lemma weighted_loop_exact (multipliers : list (string * Q))
    (stage : Z) (cp lgd ead : Q) (m : Z) (eir : Q) :
  lifetime_raises stage m eir = false ->
  forall (weights : list (string * Q)) (acc : Q),
    (forall item, In item weights ->
                  exists mult, getitem multipliers (fst item) = Ok mult) ->
    exists r,
      for_each (scenario_step multipliers stage cp lgd ead m eir) weights acc = Ok r
      /\ r == acc + Qsum (map (scenario_term multipliers stage cp lgd ead m eir)
                            weights).
Proof.
  intros Hret weights.
  induction weights as [ | [k w] rest IH]; intros acc Hkeys.
  - exists acc. split; [reflexivity | ]. cbn [map]. change (Qsum []) with 0. ring.
  - destruct (Hkeys (k, w) (or_introl eq_refl)) as [mult Hmult].
    destruct (calculate_ecl_returns stage cp lgd ead m eir mult Hret) as [e He].
    cbn [for_each scenario_step]. cbn [fst] in Hmult. rewrite Hmult.
    cbn [bind]. rewrite He. cbn [bind f_add f_mul exact].
    destruct (IH (acc + w * e)) as (r & Hrun & Hr).
    { intros item Hin. apply Hkeys. now right. }
    exists r. split; [exact Hrun | ].
    rewrite Hr. cbn [map]. rewrite Qsum_cons.
    unfold scenario_term at 2. cbn [fst snd]. rewrite Hmult, He. ring.
Qed.

Lemma Qsum_permutation (l l' : list Q) : Permutation l l' -> Qsum l == Qsum l'.
Proof.
  induction 1 as [ | x l l' _ IH | x y l | l l' l'' _ IH1 _ IH2].
  - reflexivity.
  - rewrite !Qsum_cons, IH. reflexivity.
  - rewrite !Qsum_cons. ring.
  - now rewrite IH1.
Qed.

Lemma default_scenarios_have_multipliers (F : Type) (A : PyFloat F)
    (item : string * F) :
  In item SCENARIO_WEIGHTS -> exists mult, getitem PD_MULTIPLIERS (fst item) = Ok mult.
Proof.
  intros [<- | [<- | [<- | []]]]; eexists; reflexivity.
Qed.

Lemma weighted_ecl_tables_step (weights multipliers : list (string * Q))
    (stage : Z) (cp lgd ead : Q) (m : Z) (eir : Q) :
  weighted_ecl_tables weights multipliers stage cp lgd ead m eir =
  (weighted_ecl <-
     for_each (scenario_step multipliers stage cp lgd ead m eir) weights (Qdec 0 1) ;;
   Ok (Qround2 weighted_ecl)).
Proof.
  unfold weighted_ecl_tables. f_equal.
Qed.

Lemma weighted_ecl_order_exact (order : list (string * Q))
    (stage : Z) (cp lgd ead : Q) (m : Z) (eir : Q) :
  Permutation order SCENARIO_WEIGHTS ->
  weighted_ecl_tables order PD_MULTIPLIERS stage cp lgd ead m eir
  = calculate_weighted_ecl stage cp lgd ead m eir.
Proof.
  intros Hperm. unfold calculate_weighted_ecl.
  rewrite !weighted_ecl_tables_step.
  destruct (lifetime_raises stage m eir) eqn:Hraise.
  - (* every scenario raises, so the first one met does *)
    assert (Hfirst : forall l : list (string * Q),
               l <> [] ->
               (forall item, In item l -> In item SCENARIO_WEIGHTS) ->
               for_each (scenario_step PD_MULTIPLIERS stage cp lgd ead m eir) l
                 (Qdec 0 1) = Raise ZeroDivisionError).
    { intros [ | [k w] rest] Hne Hin; [congruence | ].
      destruct (default_scenarios_have_multipliers Q exact (k, w)
                  (Hin _ (or_introl eq_refl))) as [mult Hmult].
      cbn [for_each scenario_step]. cbn [fst] in Hmult. rewrite Hmult.
      cbn [bind]. rewrite (calculate_ecl_raises _ _ _ _ _ _ _ Hraise).
      reflexivity. }
    rewrite (Hfirst SCENARIO_WEIGHTS);
      [ | discriminate | intros item Hin; exact Hin].
    rewrite (Hfirst order); [reflexivity | | ].
    + intros ->. apply Permutation_nil in Hperm. discriminate.
    + intros item Hin. exact (Permutation_in _ Hperm Hin).
  - destruct (weighted_loop_exact PD_MULTIPLIERS stage cp lgd ead m eir Hraise
                order (Qdec 0 1)) as (r1 & Hrun1 & Hr1).
    { intros item Hin. apply default_scenarios_have_multipliers.
      exact (Permutation_in _ Hperm Hin). }
    destruct (weighted_loop_exact PD_MULTIPLIERS stage cp lgd ead m eir Hraise
                SCENARIO_WEIGHTS (Qdec 0 1)) as (r2 & Hrun2 & Hr2).
    { intros item Hin. now apply default_scenarios_have_multipliers. }
    rewrite Hrun1, Hrun2. cbn [bind]. f_equal. apply Qround2_compat.
    rewrite Hr1, Hr2. apply Qplus_inj_l. apply Qsum_permutation.
    now apply Permutation_map.
Qed.

(** ** C4: the portfolio processor keeps the loans, in order *)

(** A loop that appends one computed row per item. *)
Lemma for_each_append_inv {A B : Type} (f : A -> result B) (items : list A) :
  forall (acc rows : list B),
    for_each (fun results a => row <- f a ;; Ok (results ++ [row])) items acc
    = Ok rows ->
    exists new, rows = acc ++ new /\ Forall2 (fun a b => f a = Ok b) items new.
Proof.
  induction items as [ | a items IH]; intros acc rows Hrun.
  - cbn [for_each] in Hrun. injection Hrun as <-.
    exists []. split; [now rewrite app_nil_r | constructor].
  - cbn [for_each] in Hrun. destruct (f a) as [b | e] eqn:Hfa; cbn [bind] in Hrun;
      [ | discriminate].
    destruct (IH _ _ Hrun) as (new & -> & Hall).
    exists (b :: new). split.
    + now rewrite <- app_assoc.
    + constructor; assumption.
Qed.

Lemma for_each_append_ok {A B : Type} (f : A -> result B) (items : list A) :
  (forall a, In a items -> exists b, f a = Ok b) ->
  forall acc : list B,
    exists new,
      for_each (fun results a => row <- f a ;; Ok (results ++ [row])) items acc
      = Ok (acc ++ new)
      /\ Forall2 (fun a b => f a = Ok b) items new.
Proof.
  induction items as [ | a items IH]; intros Hok acc.
  - exists []. split; [cbn [for_each]; now rewrite app_nil_r | constructor].
  - destruct (Hok a (or_introl eq_refl)) as [b Hb].
    destruct (IH (fun a' Hin => Hok a' (or_intror Hin)) (acc ++ [b]))
      as (new & Hrun & Hall).
    exists (b :: new). split.
    + cbn [for_each]. rewrite Hb. cbn [bind]. rewrite Hrun.
      now rewrite <- app_assoc.
    + constructor; assumption.
Qed.

Lemma process_loan_row {F : Type} {A : PyFloat F}
    (weights multipliers : list (string * F)) (loan : Loan F) (row : ResultRow F) :
  process_loan weights multipliers loan = Ok row ->
  carries_forward loan row
  /\ assign_stage (Initial_PD loan) (Current_PD loan) = Ok (Stage row)
  /\ weighted_ecl_tables weights multipliers (Stage row) (Current_PD loan)
       (LGD loan) (Principal loan) (Maturity_Years loan) (EIR loan)
     = Ok (ECL row).
Proof.
  unfold process_loan.
  destruct (assign_stage (Initial_PD loan) (Current_PD loan)) as [stage | e];
    cbn [bind]; [ | discriminate].
  destruct (weighted_ecl_tables weights multipliers stage (Current_PD loan)
              (LGD loan) (Principal loan) (Maturity_Years loan) (EIR loan))
    as [ecl | e] eqn:Hecl; cbn [bind]; [ | discriminate].
  intros Hrow. injection Hrow as <-. cbn.
  unfold carries_forward. cbn. repeat split; try reflexivity. exact Hecl.
Qed.

Lemma process_portfolio_rows {F : Type} {A : PyFloat F}
    (weights multipliers : list (string * F))
    (portfolio : list (Loan F)) (rows : list (ResultRow F)) :
  process_portfolio_tables weights multipliers portfolio = Ok rows ->
  Forall2 (fun loan row => process_loan weights multipliers loan = Ok row)
    portfolio rows.
Proof.
  unfold process_portfolio_tables. intros Hrun.
  destruct (for_each_append_inv _ _ _ _ Hrun) as (new & -> & Hall).
  exact Hall.
Qed.

(** In exact arithmetic a loan is processed unless its lifetime loop
    divides by zero. *)
Lemma calculate_weighted_ecl_returns (stage : Z) (cp lgd ead : Q) (m : Z) (eir : Q) :
  lifetime_raises stage m eir = false ->
  forall weights multipliers : list (string * Q),
    (forall item, In item weights ->
                  exists mult, getitem multipliers (fst item) = Ok mult) ->
    exists ecl,
      weighted_ecl_tables weights multipliers stage cp lgd ead m eir = Ok ecl.
Proof.
  intros Hret weights multipliers Hkeys.
  rewrite weighted_ecl_tables_step.
  destruct (weighted_loop_exact multipliers stage cp lgd ead m eir Hret
              weights (Qdec 0 1) Hkeys) as (r & -> & _).
  cbn [bind]. eexists; reflexivity.
Qed.

Lemma assign_stage_returns (initial_pd current_pd : Q) :
  exists stage,
    assign_stage initial_pd current_pd = Ok stage
    /\ (stage = 1 \/ stage = 2 \/ stage = 3)%Z.
Proof.
  rewrite assign_stage_exact. eexists. split; [reflexivity | ].
  destruct (Qltb (5 # 10) current_pd); [now right; right | ].
  destruct (Qltb 0 initial_pd && Qltb (30 # 10) (current_pd / initial_pd));
    [now right; left | now left].
Qed.

Lemma nonzero_base_no_raise (stage m : Z) (eir : Q) :
  ~ 1 + eir == 0 -> lifetime_raises stage m eir = false.
Proof.
  intros Hnz. unfold lifetime_raises.
  apply Qis_zero_false in Hnz. rewrite Hnz. now rewrite !andb_false_r.
Qed.

Lemma process_loan_returns (weights multipliers : list (string * Q)) (loan : Loan Q) :
  (forall item, In item weights ->
                exists mult, getitem multipliers (fst item) = Ok mult) ->
  ~ 1 + EIR loan == 0 ->
  exists row, process_loan weights multipliers loan = Ok row.
Proof.
  intros Hkeys Hnz. unfold process_loan.
  destruct (assign_stage_returns (Initial_PD loan) (Current_PD loan))
    as (stage & -> & _).
  cbn [bind].
  destruct (calculate_weighted_ecl_returns stage (Current_PD loan) (LGD loan)
              (Principal loan) (Maturity_Years loan) (EIR loan)
              (nonzero_base_no_raise _ _ _ Hnz) weights multipliers Hkeys)
    as [ecl ->].
  cbn [bind]. eexists; reflexivity.
Qed.

(** C4.  Whatever the arithmetic, when [process_portfolio] returns, it
    returns one row per loan, in the order of the loans; each row repeats the
    eight attributes of its loan and adds the stage given by [assign_stage]
    and the ECL given by [calculate_weighted_ecl] for that stage.  In exact
    arithmetic it does return for every portfolio in which no loan has
    [1 + EIR = 0]. *)
Theorem C4_process_portfolio_frame :
  (forall (F : Type) (A : PyFloat F) (portfolio : list (Loan F))
          (rows : list (ResultRow F)),
      process_portfolio portfolio = Ok rows ->
      List.length rows = List.length portfolio
      /\ Forall2
           (fun loan row =>
              carries_forward loan row
              /\ assign_stage (Initial_PD loan) (Current_PD loan) = Ok (Stage row)
              /\ calculate_weighted_ecl (Stage row) (Current_PD loan) (LGD loan)
                   (Principal loan) (Maturity_Years loan) (EIR loan)
                 = Ok (ECL row))
           portfolio rows)
  /\ (forall portfolio : list (Loan Q),
         (forall loan, In loan portfolio -> ~ 1 + EIR loan == 0) ->
         exists rows, process_portfolio portfolio = Ok rows).
Proof.
  split.
  - intros F A portfolio rows Hrun.
    apply process_portfolio_rows in Hrun. split.
    + symmetry. exact (Forall2_length Hrun).
    + induction Hrun as [ | loan row portfolio rows Hrow _ IH]; constructor.
      * now apply process_loan_row in Hrow.
      * exact IH.
  - intros portfolio Hnz. unfold process_portfolio, process_portfolio_tables.
    destruct (for_each_append_ok
                (process_loan SCENARIO_WEIGHTS PD_MULTIPLIERS) portfolio) with (acc := @nil (ResultRow Q))
      as (new & Hrun & _).
    + intros loan Hin. apply process_loan_returns.
      * apply default_scenarios_have_multipliers.
      * now apply Hnz.
    + exists new. exact Hrun.
Qed.

(** ** C5: the golden values *)

(** C5.  The Stage-1 example (PD 0.02, LGD 0.45, exposure 100000, multiplier
    1.0) gives exactly 900.00, whatever the maturity and the rate; the
    Stage-3 example (PD 0.60, LGD 0.45, exposure 100000, one year at 3%,
    multiplier 1.0) gives exactly 26213.59.  Both hold in exact arithmetic
    and, bit for bit, in binary64. *)
Theorem C5_golden_values :
  (forall (maturity_years : Z) (eir : Q),
      calculate_ecl 1 0.02 0.45 100000 maturity_years eir 1.0 = Ok 900.00)
  /\ calculate_ecl 3 0.60 0.45 100000 1 0.03 1.0 = Ok 26213.59
  /\ (forall (maturity_years : Z) (eir : float),
         calculate_ecl 1 0.02%float 0.45%float 100000%float maturity_years eir
           1.0%float = Ok 900.0%float)
  /\ calculate_ecl 3 0.60%float 0.45%float 100000%float 1 0.03%float 1.0%float
     = Ok 26213.59%float.
Proof.
  repeat split; intros; vm_compute; reflexivity.
Qed.

(** ** C6: stages and signs for valid loans, in exact arithmetic *)









(** Whatever the arithmetic, a stage that is returned is 1, 2 or 3. *)
Lemma assign_stage_range {F : Type} {A : PyFloat F}
    (initial_pd current_pd : F) (stage : Z) :
  assign_stage initial_pd current_pd = Ok stage ->
  (stage = 1 \/ stage = 2 \/ stage = 3)%Z.
Proof.
  unfold assign_stage, truediv.
  destruct (f_lt (f_dec 5 1) current_pd).
  - intros E. injection E as <-. now right; right.
  - destruct (f_lt (f_dec 0 0) initial_pd); cbn [bind].
    + destruct (f_is_zero initial_pd); cbn [bind]; [discriminate | ].
      destruct (f_lt (f_dec 30 1) (f_div current_pd initial_pd));
        intros E; injection E as <-; [now right; left | now left].
    + intros E. injection E as <-. now left.
Qed.





(** Under binary64 the two sample loans get the same stages and the same
    ECLs, to the cent. *)
Example sample_portfolio_binary64 :
  exists rows,
    process_portfolio sample_portfolio_b64 = Ok rows
    /\ map (@Stage float) rows = [1; 3]%Z
    /\ map (@ECL float) rows = [981%float; 88295.04%float].
Proof. eexists. split; [vm_compute; reflexivity | split; reflexivity]. Qed.

(** ** C7: discounting, in exact arithmetic *)














(** ** C8: the order of accumulation *)

(** C8, as the code has it under binary64.  For a Stage-1 loan with PD 0.05,
    LGD 0.45 and exposure 200 the scenario results are 3.6, 4.5 and 6.75 and
    the exact weighted sum is the half-cent 4.905.  Accumulated in the
    code's order Optimistic, Base, Downturn the doubles give 4.90; in the
    order Optimistic, Downturn, Base they give 4.91. *)
Lemma C8_order_changes_result_binary64 :
  Permutation
    [ ("Optimistic"%string, f_dec 30 2);
      ("Downturn"%string, f_dec 30 2);
      ("Base"%string, f_dec 40 2) ]
    (SCENARIO_WEIGHTS (F := float))
  /\ calculate_weighted_ecl 1 0.05%float 0.45%float 200%float 1 0.03%float
     = Ok 4.9%float
  /\ weighted_ecl_tables
       [ ("Optimistic"%string, f_dec 30 2);
         ("Downturn"%string, f_dec 30 2);
         ("Base"%string, f_dec 40 2) ]
       PD_MULTIPLIERS 1 0.05%float 0.45%float 200%float 1 0.03%float
     = Ok 4.91%float
  /\ Ok 4.9%float <> Ok 4.91%float.
Proof.
  split; [ | split; [ | split]].
  - unfold SCENARIO_WEIGHTS. apply perm_skip. apply perm_swap.
  - vm_compute. reflexivity.
  - vm_compute. reflexivity.
  - intros E.
    pose proof (f_equal (fun r : result float =>
                           match r with
                           | Ok v => PrimFloat.eqb v 4.9
                           | Raise _ => false
                           end) E) as Hb.
    vm_compute in Hb. discriminate.
Qed.

(** C8, amended.  In exact arithmetic the order in which the three default
    scenarios are accumulated does not matter: every permutation of the
    weight table gives the result of [calculate_weighted_ecl], exceptions
    included. *)
Theorem C8_order_irrelevant_exact :
  forall (order : list (string * Q)),
    Permutation order SCENARIO_WEIGHTS ->
    forall (stage : Z) (current_pd lgd ead : Q) (maturity_years : Z) (eir : Q),
      weighted_ecl_tables order PD_MULTIPLIERS
        stage current_pd lgd ead maturity_years eir
      = calculate_weighted_ecl stage current_pd lgd ead maturity_years eir.
Proof.
  intros order Hperm stage cp lgd ead m eir.
  now apply weighted_ecl_order_exact.
Qed.

(** The loan of the binary64 counterexample, in exact arithmetic: 4.90 in
    both orders (the tie 4.905 goes to the even cent). *)
Lemma C8_witness_exact :
  Permutation
    [ ("Optimistic"%string, 0.30); ("Downturn"%string, 0.30); ("Base"%string, 0.40) ]
    (SCENARIO_WEIGHTS (F := Q))
  /\ weighted_ecl_tables
       [ ("Optimistic"%string, 0.30); ("Downturn"%string, 0.30); ("Base"%string, 0.40) ]
       PD_MULTIPLIERS 1 0.05 0.45 200 1 0.03
     = calculate_weighted_ecl 1 0.05 0.45 200 1 0.03
  /\ calculate_weighted_ecl 1 0.05 0.45 200 1 0.03 = Ok 4.90.
Proof.
  assert (Hperm : Permutation
            [ ("Optimistic"%string, 0.30); ("Downturn"%string, 0.30);
              ("Base"%string, 0.40) ]
            (SCENARIO_WEIGHTS (F := Q))).
  { unfold SCENARIO_WEIGHTS. apply perm_skip. apply perm_swap. }
  split; [exact Hperm | split].
  - exact (C8_order_irrelevant_exact _ Hperm 1%Z 0.05 0.45 200 1%Z 0.03).
  - vm_compute. reflexivity.
Defined.

(** ** C9: the scenario tables are not validated *)

Lemma for_each_app {A S : Type} (body : S -> A -> result S) (l1 l2 : list A) :
  forall s : S,
    for_each body (l1 ++ l2) s = (s' <- for_each body l1 s ;; for_each body l2 s').
Proof.
  induction l1 as [ | a l1 IH]; intros s; cbn [app for_each].
  - reflexivity.
  - destruct (body s a) as [s1 | e]; cbn [bind]; [apply IH | reflexivity].
Qed.

Lemma getitem_missing {V : Type} (d : list (string * V)) (key : string) :
  (forall v, ~ In (key, v) d) -> getitem d key = Raise (KeyError key).
Proof.
  induction d as [ | [k v] d IH]; intros Hmiss; cbn [getitem].
  - reflexivity.
  - destruct (String.eqb k key) eqn:Hk.
    + apply String.eqb_eq in Hk. subst k.
      exfalso. apply (Hmiss v). now left.
    + apply IH. intros v' Hin. apply (Hmiss v'). now right.
Qed.

(** The loop over the weights is the loop of [scenario_pass]. *)
Lemma weighted_ecl_tables_passes (F : Type) (A : PyFloat F)
    (weights multipliers : list (string * F))
    (stage : Z) (cp lgd ead : F) (m : Z) (eir : F) :
  weighted_ecl_tables weights multipliers stage cp lgd ead m eir
  = bind (for_each (scenario_pass multipliers stage cp lgd ead m eir) weights
            (f_dec 0 1))
      (fun weighted_ecl => Ok (f_round2 weighted_ecl)).
Proof. reflexivity. Qed.

(** A scenario without multiplier, in any arithmetic: the scenarios before
    it are evaluated, and their exceptions come first; then the lookup
    raises KeyError.  Nothing is returned. *)
Lemma weighted_ecl_missing_multiplier (F : Type) (A : PyFloat F)
    (before after multipliers : list (string * F)) (k : string) (w : F)
    (stage : Z) (cp lgd ead : F) (m : Z) (eir : F) :
  (forall v, ~ In (k, v) multipliers) ->
  weighted_ecl_tables (before ++ (k, w) :: after) multipliers
    stage cp lgd ead m eir
  = bind (for_each (scenario_pass multipliers stage cp lgd ead m eir) before
            (f_dec 0 1))
      (fun _ => Raise (KeyError k)).
Proof.
  intros Hmiss. rewrite weighted_ecl_tables_passes, for_each_app.
  destruct (for_each (scenario_pass multipliers stage cp lgd ead m eir) before
              (f_dec 0 1)) as [acc | e]; cbn [bind]; [ | reflexivity].
  cbn [for_each]. unfold scenario_pass at 1.
  rewrite (getitem_missing multipliers k Hmiss). reflexivity.
Qed.

(** The loop over the weights returns when every pass does. *)
Lemma scenario_passes_return (F : Type) (A : PyFloat F)
    (multipliers : list (string * F))
    (stage : Z) (cp lgd ead : F) (m : Z) (eir : F) (weights : list (string * F)) :
  (forall item, In item weights ->
                exists mult e,
                  getitem multipliers (fst item) = Ok mult
                  /\ calculate_ecl stage cp lgd ead m eir mult = Ok e) ->
  forall acc : F,
    exists acc',
      for_each (scenario_pass multipliers stage cp lgd ead m eir) weights acc
      = Ok acc'.
Proof.
  induction weights as [ | [scenario weight] weights IH]; intros Hitems acc.
  - now exists acc.
  - destruct (Hitems _ (or_introl eq_refl)) as (mult & e & Hm & He).
    cbn [fst] in Hm. cbn [for_each]. unfold scenario_pass at 1.
    rewrite Hm. cbn [bind]. rewrite He. cbn [bind].
    apply IH. intros item Hin. apply Hitems. now right.
Qed.

Lemma process_portfolio_tables_returns (F : Type) (A : PyFloat F)
    (weights multipliers : list (string * F)) (portfolio : list (Loan F)) :
  (forall loan, In loan portfolio ->
     exists stage,
       assign_stage (Initial_PD loan) (Current_PD loan) = Ok stage
       /\ forall item, In item weights ->
            exists mult e,
              getitem multipliers (fst item) = Ok mult
              /\ calculate_ecl stage (Current_PD loan) (LGD loan)
                   (Principal loan) (Maturity_Years loan) (EIR loan) mult
                 = Ok e) ->
  exists rows,
    process_portfolio_tables weights multipliers portfolio = Ok rows
    /\ List.length rows = List.length portfolio.
Proof.
  intros Hloans. unfold process_portfolio_tables.
  destruct (for_each_append_ok (process_loan weights multipliers) portfolio)
    with (acc := @nil (ResultRow F)) as (rows & Hrun & Hrows).
  { intros loan Hin. destruct (Hloans loan Hin) as (stage & Hstage & Hitems).
    unfold process_loan. rewrite Hstage. cbn [bind].
    rewrite weighted_ecl_tables_passes.
    destruct (scenario_passes_return F A multipliers stage _ _ _ _ _ weights
                Hitems (f_dec 0 1)) as (acc & ->).
    cbn [bind]. eexists. reflexivity. }
  exists rows. split; [exact Hrun | ].
  symmetry. exact (Forall2_length Hrows).
Qed.

Lemma default_scenario_set_valid :
  scenario_set_valid SCENARIO_WEIGHTS PD_MULTIPLIERS.
Proof.
  split.
  - vm_compute. discriminate.
  - apply default_scenarios_have_multipliers.
Qed.

(** C9, as the code has it.  With the single weight 2 for "Base" (sum 2,
    not 1) the two sample loans are processed and reported, at twice their
    Base-scenario loss; with no multiplier at all and no loan, the empty
    result is returned.  No error is reported in either case. *)
Lemma C9_invalid_scenario_set_accepted :
  ~ scenario_set_valid [("Base"%string, 2)] [("Base"%string, 1)]
  /\ (exists row1 row2,
         process_portfolio_tables [("Base"%string, 2)] [("Base"%string, 1)]
           sample_portfolio = Ok [row1; row2]
         /\ ECL row1 = 1800.00 /\ ECL row2 = 176832.04)
  /\ ~ scenario_set_valid SCENARIO_WEIGHTS []
  /\ process_portfolio_tables (@SCENARIO_WEIGHTS Q exact) [] [] = Ok [].
Proof.
  split; [ | split; [ | split]].
  - intros [Hsum _]. apply Hsum. reflexivity.
  - eexists. eexists. split; [vm_compute; reflexivity | ].
    split; reflexivity.
  - intros [_ Hkeys].
    destruct (Hkeys ("Optimistic"%string, 0.30) (or_introl eq_refl)) as [mult Hm].
    discriminate.
  - reflexivity.
Qed.

(** C9, amended.  The engine does not validate its scenario tables.  The
    tables it is written with are valid.  With other tables, in any
    arithmetic: an empty portfolio gives the empty result; when every
    weighted scenario has a multiplier and the stage and the scenario losses
    of every loan are computed without exception, one row per loan is
    returned, whatever the weights add up to; and with a weighted scenario
    that has no multiplier a portfolio that is not empty returns no row: the
    stage of the first loan is assigned, the scenarios before the missing
    one are evaluated, an exception of these computations coming first, and
    the lookup of the missing one raises KeyError for it. *)
Theorem C9_no_scenario_validation :
  scenario_set_valid SCENARIO_WEIGHTS PD_MULTIPLIERS
  /\ (forall (F : Type) (A : PyFloat F) (weights multipliers : list (string * F)),
         process_portfolio_tables weights multipliers [] = Ok [])
  /\ (forall (F : Type) (A : PyFloat F) (weights multipliers : list (string * F))
             (portfolio : list (Loan F)),
         (forall loan, In loan portfolio ->
            exists stage,
              assign_stage (Initial_PD loan) (Current_PD loan) = Ok stage
              /\ forall item, In item weights ->
                   exists mult e,
                     getitem multipliers (fst item) = Ok mult
                     /\ calculate_ecl stage (Current_PD loan) (LGD loan)
                          (Principal loan) (Maturity_Years loan) (EIR loan) mult
                        = Ok e) ->
         exists rows,
           process_portfolio_tables weights multipliers portfolio = Ok rows
           /\ List.length rows = List.length portfolio)
  /\ (forall (F : Type) (A : PyFloat F)
             (before after multipliers : list (string * F)) (k : string) (w : F)
             (loan : Loan F) (rest : list (Loan F)),
         (forall v, ~ In (k, v) multipliers) ->
         process_portfolio_tables (before ++ (k, w) :: after) multipliers
           (loan :: rest)
         = bind (assign_stage (Initial_PD loan) (Current_PD loan))
             (fun stage =>
                bind (for_each
                        (scenario_pass multipliers stage (Current_PD loan)
                           (LGD loan) (Principal loan) (Maturity_Years loan)
                           (EIR loan))
                        before (f_dec 0 1))
                  (fun _ => Raise (KeyError k)))
         /\ forall rows,
              process_portfolio_tables (before ++ (k, w) :: after) multipliers
                (loan :: rest) <> Ok rows).
Proof.
  split; [exact default_scenario_set_valid | split; [ | split]].
  - reflexivity.
  - exact process_portfolio_tables_returns.
  - intros F A before after multipliers k w loan rest Hmiss.
    assert (Hrun : process_portfolio_tables (before ++ (k, w) :: after)
                     multipliers (loan :: rest)
                   = bind (assign_stage (Initial_PD loan) (Current_PD loan))
                       (fun stage =>
                          bind (for_each
                                  (scenario_pass multipliers stage
                                     (Current_PD loan) (LGD loan)
                                     (Principal loan) (Maturity_Years loan)
                                     (EIR loan))
                                  before (f_dec 0 1))
                            (fun _ => Raise (KeyError k)))).
    { unfold process_portfolio_tables. cbn [for_each]. unfold process_loan.
      destruct (assign_stage (Initial_PD loan) (Current_PD loan)) as [stage | e];
        cbn [bind]; [ | reflexivity].
      rewrite (weighted_ecl_missing_multiplier F A before after multipliers k w
                 stage _ _ _ _ _ Hmiss).
      destruct (for_each _ before (f_dec 0 1)); reflexivity. }
    split; [exact Hrun | ].
    intros rows. rewrite Hrun.
    destruct (assign_stage (Initial_PD loan) (Current_PD loan)) as [stage | e];
      cbn [bind]; [ | discriminate].
    destruct (for_each _ before (f_dec 0 1)); cbn [bind]; discriminate.
Qed.

(** Under binary64, the default weights with the multiplier of "Downturn"
    removed: the first sample loan is assigned stage 1, its Optimistic and
    Base losses are computed, and the lookup raises KeyError "Downturn"; in
    exact arithmetic the single weight 2 on the two sample loans gives two
    rows. *)
Lemma C9_witness_missing_downturn :
  process_portfolio_tables
    ([("Optimistic"%string, f_dec 30 2); ("Base"%string, f_dec 40 2)]
       ++ ("Downturn"%string, f_dec 30 2) :: [])
    [("Optimistic"%string, f_dec 80 2); ("Base"%string, f_dec 100 2)]
    sample_portfolio_b64
  = Raise (KeyError "Downturn")
  /\ exists rows,
       process_portfolio_tables [("Base"%string, 2)] [("Base"%string, 1)]
         sample_portfolio = Ok rows
       /\ List.length rows = List.length sample_portfolio.
Proof.
  split.
  - etransitivity.
    + apply (proj2 (proj2 (proj2 C9_no_scenario_validation)) float binary64).
      intros v [E | [E | []]]; discriminate.
    + vm_compute. reflexivity.
  - apply (proj1 (proj2 (proj2 C9_no_scenario_validation)) Q exact).
    intros loan [<- | [<- | []]]; eexists; (split; [vm_compute; reflexivity | ]);
      intros item [<- | []]; eexists; eexists;
      (split; vm_compute; reflexivity).
Defined.

(** ** C10: no validation of the stage *)

(** C10.  In any arithmetic, a stage other than 1 (0, 4, a negative number
    as well as 2 and 3) takes the lifetime branch: the result is the rounded
    outcome of the year loop, the same as for stage 2 and for stage 3, and the
    only exceptions are those of the loop. *)
Theorem C10_stage_not_validated :
  forall (F : Type) (A : PyFloat F) (stage : Z) (current_pd lgd ead : F)
         (maturity_years : Z) (eir pd_multiplier : F),
    stage <> 1%Z ->
    calculate_ecl stage current_pd lgd ead maturity_years eir pd_multiplier
    = (st <- for_each
               (lifetime_year
                  (py_min (f_mul current_pd pd_multiplier) (f_dec 10 1))
                  lgd ead eir)
               (py_range 1 (maturity_years + 1)) (f_dec 0 1, f_dec 10 1) ;;
       Ok (f_round2 (fst st)))
    /\ calculate_ecl stage current_pd lgd ead maturity_years eir pd_multiplier
       = calculate_ecl 2 current_pd lgd ead maturity_years eir pd_multiplier
    /\ calculate_ecl stage current_pd lgd ead maturity_years eir pd_multiplier
       = calculate_ecl 3 current_pd lgd ead maturity_years eir pd_multiplier.
Proof.
  intros F A stage cp lgd ead m eir mult Hstage.
  unfold calculate_ecl.
  apply Z.eqb_neq in Hstage. rewrite Hstage.
  change (2 =? 1)%Z with false. change (3 =? 1)%Z with false.
  repeat split.
  destruct (for_each _ _ _); reflexivity.
Qed.

(** Stage 0 is computed like stage 2: here 36393.63 for a two-year loan. *)
Lemma C10_witness_stage_0 :
  (0 <> 1)%Z
  /\ calculate_ecl 0 0.6 0.45 100000 2 0.03 1 = Ok 36393.63
  /\ calculate_ecl 0 0.6 0.45 100000 2 0.03 1
     = calculate_ecl 2 0.6 0.45 100000 2 0.03 1.
Proof.
  split; [discriminate | split].
  - vm_compute. reflexivity.
  - exact (proj1 (proj2 (C10_stage_not_validated Q exact 0 0.6 0.45 100000 2 0.03 1
                           ltac:(discriminate)))).
Defined.

(** * Properties of the callers and of the dashboard's calculations *)

(** ** The dashboard's scenario loss and the engine's *)

Lemma calculate_ecl_of_scenario {F : Type} {A : PyFloat F}
    (stage : Z) (cp lgd ead : F) (m : Z) (eir mult : F) :
  calculate_ecl stage cp lgd ead m eir mult =
  (e <- calculate_ecl_scenario stage cp lgd ead m eir mult ;; Ok (f_round2 e)).
Proof.
  unfold calculate_ecl, calculate_ecl_scenario.
  destruct (stage =? 1)%Z; cbn [bind]; [reflexivity | ].
  destruct (for_each _ _ _); reflexivity.
Qed.

(** X1.  In any arithmetic, [calculate_ecl] of the engine is
    [calculate_ecl_scenario] of the dashboard followed by [round(_, 2)]: the
    two return together or raise together, with the same exception, and the
    value of the engine is the value of the dashboard rounded to two
    decimals. *)
Theorem X1_engine_rounds_dashboard_loss :
  forall (F : Type) (A : PyFloat F) (stage : Z) (current_pd lgd ead : F)
         (maturity_years : Z) (eir pd_multiplier : F),
    calculate_ecl stage current_pd lgd ead maturity_years eir pd_multiplier =
    (e <- calculate_ecl_scenario stage current_pd lgd ead maturity_years eir
            pd_multiplier ;;
     Ok (f_round2 e)).
Proof.
  intros. apply calculate_ecl_of_scenario.
Qed.

(** ** Edge cases of the engine *)

Lemma py_range_empty (lo hi : Z) : (hi <= lo)%Z -> py_range lo hi = [].
Proof.
  intros Hle. unfold py_range.
  replace (Z.to_nat (hi - lo)) with 0%nat by lia. reflexivity.
Qed.

Lemma lifetime_without_years {F : Type} {A : PyFloat F}
    (stage : Z) (cp lgd ead : F) (m : Z) (eir mult : F) :
  stage <> 1%Z -> (m <= 0)%Z ->
  calculate_ecl_scenario stage cp lgd ead m eir mult = Ok (f_dec 0 1)
  /\ calculate_ecl stage cp lgd ead m eir mult = Ok (f_round2 (f_dec 0 1)).
Proof.
  intros Hstage Hm. rewrite calculate_ecl_of_scenario.
  unfold calculate_ecl_scenario.
  apply Z.eqb_neq in Hstage. rewrite Hstage.
  rewrite py_range_empty by lia. cbn [for_each bind fst]. split; reflexivity.
Qed.

(** X6.  Off stage 1 a maturity of zero years or less leaves the year loop
    without a pass: in both arithmetics [calculate_ecl_scenario],
    [calculate_ecl] and [calculate_weighted_ecl] return zero, whatever the
    PD, the LGD, the exposure and the rate, and raise nothing. *)
Theorem X6_no_year_no_loss :
  (forall (stage : Z) (current_pd lgd ead : Q) (maturity_years : Z)
          (eir pd_multiplier : Q),
      stage <> 1%Z -> (maturity_years <= 0)%Z ->
      calculate_ecl_scenario stage current_pd lgd ead maturity_years eir
        pd_multiplier = Ok 0.0
      /\ calculate_ecl stage current_pd lgd ead maturity_years eir pd_multiplier
         = Ok 0.00
      /\ calculate_weighted_ecl stage current_pd lgd ead maturity_years eir
         = Ok 0.00)
  /\ (forall (stage : Z) (current_pd lgd ead : float) (maturity_years : Z)
             (eir pd_multiplier : float),
         stage <> 1%Z -> (maturity_years <= 0)%Z ->
         calculate_ecl_scenario stage current_pd lgd ead maturity_years eir
           pd_multiplier = Ok 0%float
         /\ calculate_ecl stage current_pd lgd ead maturity_years eir
              pd_multiplier = Ok 0%float
         /\ calculate_weighted_ecl stage current_pd lgd ead maturity_years eir
            = Ok 0%float).
Proof.
  split; intros stage cp lgd ead m eir mult Hstage Hm.
  - destruct (lifetime_without_years stage cp lgd ead m eir mult Hstage Hm)
      as [Hs He].
    split; [exact Hs | split; [exact He | ]].
    rewrite calculate_weighted_ecl_unrolled.
    rewrite !(proj2 (lifetime_without_years stage cp lgd ead m eir _ Hstage Hm)).
    reflexivity.
  - destruct (lifetime_without_years stage cp lgd ead m eir mult Hstage Hm)
      as [Hs He].
    split; [exact Hs | split; [exact He | ]].
    rewrite calculate_weighted_ecl_unrolled.
    rewrite !(proj2 (lifetime_without_years stage cp lgd ead m eir _ Hstage Hm)).
    reflexivity.
Qed.

(** A credit-impaired loan with no year left is provisioned at zero. *)
Lemma X6_witness_impaired_loan_without_years :
  calculate_ecl_scenario 3 0.60 0.45 100000 0 0.03 1 = Ok 0.0
  /\ calculate_ecl 3 0.60 0.45 100000 0 0.03 1 = Ok 0.00
  /\ calculate_weighted_ecl 3 0.60 0.45 100000 0 0.03 = Ok 0.00.
Proof.
  apply (proj1 X6_no_year_no_loss 3%Z 0.60 0.45 100000 0%Z 0.03 1);
    [discriminate | lia].
Defined.

(** ** The portfolio processor: composition and failure *)

(** The rows of a run are those already there, then those of the items. *)
Lemma for_each_append_acc {A B : Type} (f : A -> result B) (items : list A) :
  forall acc : list B,
    for_each (fun results a => row <- f a ;; Ok (results ++ [row])) items acc
    = (rows <- for_each (fun results a => row <- f a ;; Ok (results ++ [row]))
                 items [] ;;
       Ok (acc ++ rows)).
Proof.
  induction items as [ | a items IH]; intros acc; cbn [for_each].
  - cbn [bind]. now rewrite app_nil_r.
  - destruct (f a) as [b | e]; cbn [bind]; [ | reflexivity].
    rewrite (IH (acc ++ [b])), (IH ([] ++ [b])).
    destruct (for_each _ items []) as [rows | e]; cbn [bind]; [ | reflexivity].
    now rewrite <- app_assoc.
Qed.

(** X8.  In any arithmetic, processing two portfolios one after the other
    is processing their concatenation: the rows of the first, then the rows
    of the second; and the exception of the first portfolio, or else of the
    second, when one of them raises.  No loan affects the row of another. *)
Theorem X8_process_portfolio_concatenation :
  forall (F : Type) (A : PyFloat F) (portfolio1 portfolio2 : list (Loan F)),
    process_portfolio (portfolio1 ++ portfolio2) =
    (rows1 <- process_portfolio portfolio1 ;;
     rows2 <- process_portfolio portfolio2 ;;
     Ok (rows1 ++ rows2)).
Proof.
  intros F A p1 p2. unfold process_portfolio, process_portfolio_tables.
  rewrite for_each_app.
  destruct (for_each _ p1 []) as [rows1 | e]; cbn [bind]; [ | reflexivity].
  apply for_each_append_acc.
Qed.

(** The loop that appends a row per item stops at the first item whose row
    cannot be made. *)
Lemma for_each_append_first_raise {A B : Type} (f : A -> result B)
    (before after : list A) (a : A) (e : exn) :
  (forall x, In x before -> exists b, f x = Ok b) ->
  f a = Raise e ->
  forall acc : list B,
    for_each (fun results x => row <- f x ;; Ok (results ++ [row]))
      (before ++ a :: after) acc
    = Raise e.
Proof.
  intros Hbefore Ha.
  induction before as [ | x before IH]; intros acc; cbn [app for_each].
  - rewrite Ha. reflexivity.
  - destruct (Hbefore x (or_introl eq_refl)) as [b ->]. cbn [bind].
    apply IH. intros y Hy. apply Hbefore. now right.
Qed.

Lemma for_each_append_raise_inv {A B : Type} (f : A -> result B) (e : exn)
    (items : list A) :
  forall acc : list B,
    for_each (fun results x => row <- f x ;; Ok (results ++ [row])) items acc
    = Raise e ->
    exists before a after,
      items = before ++ a :: after
      /\ (forall x, In x before -> exists b, f x = Ok b)
      /\ f a = Raise e.
Proof.
  induction items as [ | x items IH]; intros acc Hrun; cbn [for_each] in Hrun.
  - discriminate.
  - destruct (f x) as [b | e'] eqn:Hx; cbn [bind] in Hrun.
    + destruct (IH _ Hrun) as (before & a & after & -> & Hbefore & Ha).
      exists (x :: before), a, after. split; [reflexivity | split; [ | exact Ha]].
      intros y [<- | Hy]; [now exists b | now apply Hbefore].
    + injection Hrun as ->.
      exists [], x, items. split; [reflexivity | split; [ | exact Hx]].
      intros y [].
Qed.

(** X9.  In any arithmetic, [process_portfolio] raises an exception exactly
    when the processing of some loan raises it while every loan before it
    gets its row: the exception of the first loan that fails is the one of
    the whole run, and no row is returned, whatever the loans after it. *)
Theorem X9_process_portfolio_failure :
  forall (F : Type) (A : PyFloat F) (portfolio : list (Loan F)) (e : exn),
    process_portfolio portfolio = Raise e
    <-> exists before loan after,
          portfolio = before ++ loan :: after
          /\ (forall l, In l before ->
                exists row,
                  process_loan SCENARIO_WEIGHTS PD_MULTIPLIERS l = Ok row)
          /\ process_loan SCENARIO_WEIGHTS PD_MULTIPLIERS loan = Raise e.
Proof.
  intros F A portfolio e. unfold process_portfolio, process_portfolio_tables.
  split.
  - apply for_each_append_raise_inv.
  - intros (before & loan & after & -> & Hbefore & Hloan).
    now apply for_each_append_first_raise.
Qed.

(** Under binary64: after the performing sample loan, a loan in stage 2 at
    the rate 1e200 over two years ends the run with OverflowError, the power
    [(1.0 + eir) ** 2] being out of range; a loan in stage 2 at the rate -1
    ends it with ZeroDivisionError, the discount base being 0.0. *)
Lemma X9_witness_rate_minus_one :
  process_portfolio
    ([ {| Loan_ID := "L0001"; Sector := "Retail"; Principal := 100000%float;
          Initial_PD := 0.02%float; Current_PD := 0.02%float;
          Maturity_Years := 5; EIR := 0.03%float; LGD := 0.45%float |} ]
       ++ {| Loan_ID := "L0003"; Sector := "SME"; Principal := 5000%float;
             Initial_PD := 0.01%float; Current_PD := 0.05%float;
             Maturity_Years := 2; EIR := 1e200%float; LGD := 0.45%float |}
       :: sample_portfolio_b64)
  = Raise OverflowError
  /\ process_portfolio
       ([ {| Loan_ID := "L0001"; Sector := "Retail"; Principal := 100000%float;
             Initial_PD := 0.02%float; Current_PD := 0.02%float;
             Maturity_Years := 5; EIR := 0.03%float; LGD := 0.45%float |} ]
          ++ {| Loan_ID := "L0003"; Sector := "SME"; Principal := 5000%float;
                Initial_PD := 0.01%float; Current_PD := 0.05%float;
                Maturity_Years := 2; EIR := (-1)%float; LGD := 0.45%float |}
          :: [])
     = Raise ZeroDivisionError.
Proof.
  split.
  - apply (proj2 (X9_process_portfolio_failure float binary64 _ OverflowError)).
    eexists _, _, _. split; [reflexivity | split].
    + intros l [<- | []]. eexists. vm_compute. reflexivity.
    + vm_compute. reflexivity.
  - apply (proj2 (X9_process_portfolio_failure float binary64 _ ZeroDivisionError)).
    eexists _, _, _. split; [reflexivity | split].
    + intros l [<- | []]. eexists. vm_compute. reflexivity.
    + vm_compute. reflexivity.
Defined.

(** ** The summary loop *)

Lemma stage_count_cons {F : Type} (k : Z) (r : ResultRow F)
    (rows : list (ResultRow F)) :
  stage_count k (r :: rows)
  = ((if (Stage r =? k)%Z then 1 else 0) + stage_count k rows)%Z.
Proof.
  unfold stage_count. cbn [filter].
  destruct (Stage r =? k)%Z; [ | reflexivity].
  cbn [List.length]. rewrite Nat2Z.inj_succ. lia.
Qed.

Lemma stage_counts_total {F : Type} (rows : list (ResultRow F)) :
  Forall (fun r => (Stage r = 1 \/ Stage r = 2 \/ Stage r = 3)%Z) rows ->
  (stage_count 1 rows + stage_count 2 rows + stage_count 3 rows
   = Z.of_nat (List.length rows))%Z.
Proof.
  induction 1 as [ | r rows Hr _ IH].
  - reflexivity.
  - rewrite !stage_count_cons. cbn [List.length]. rewrite Nat2Z.inj_succ.
    destruct Hr as [-> | [-> | ->]]; cbn [Z.eqb Pos.eqb]; lia.
Qed.

Lemma increment_known (c1 c2 c3 k : Z) :
  (k = 1 \/ k = 2 \/ k = 3)%Z ->
  increment [(1, c1); (2, c2); (3, c3)]%Z k
  = Ok [(1, c1 + (if k =? 1 then 1 else 0));
        (2, c2 + (if k =? 2 then 1 else 0));
        (3, c3 + (if k =? 3 then 1 else 0))]%Z.
Proof.
  intros [-> | [-> | ->]]; cbn; now rewrite !Z.add_0_r.
Qed.

Lemma increment_unknown (c1 c2 c3 k : Z) :
  ~ (k = 1 \/ k = 2 \/ k = 3)%Z ->
  increment [(1, c1); (2, c2); (3, c3)]%Z k
  = Raise (KeyError (NilZero.string_of_int (Z.to_int k))).
Proof.
  intros Hk. cbn [increment].
  destruct (1 =? k)%Z eqn:H1; [apply Z.eqb_eq in H1; lia | ].
  destruct (2 =? k)%Z eqn:H2; [apply Z.eqb_eq in H2; lia | ].
  destruct (3 =? k)%Z eqn:H3; [apply Z.eqb_eq in H3; lia | ].
  reflexivity.
Qed.

(** The loop on rows whose stages are 1, 2 or 3, from any counts. *)
Lemma summary_loop {F : Type} {A : PyFloat F} (rows : list (ResultRow F)) :
  Forall (fun r => (Stage r = 1 \/ Stage r = 2 \/ Stage r = 3)%Z) rows ->
  forall (c1 c2 c3 : Z) (total : F),
    for_each
      (fun st r =>
         let '(stage_counts, total_ecl) := st in
         stage_counts <- increment stage_counts (Stage r) ;;
         Ok (stage_counts, f_add total_ecl (ECL r)))
      rows ([(1, c1); (2, c2); (3, c3)]%Z, total)
    = Ok ([(1, c1 + stage_count 1 rows);
           (2, c2 + stage_count 2 rows);
           (3, c3 + stage_count 3 rows)]%Z,
          fold_left (fun t r => f_add t (ECL r)) rows total).
Proof.
  induction 1 as [ | r rows Hr _ IH]; intros c1 c2 c3 total.
  - cbn [for_each fold_left]. unfold stage_count. cbn.
    now rewrite !Z.add_0_r.
  - cbn [for_each fold_left]. rewrite (increment_known _ _ _ _ Hr).
    cbn [bind]. rewrite IH, !stage_count_cons, !Z.add_assoc. reflexivity.
Qed.

Lemma process_portfolio_stages {F : Type} {A : PyFloat F}
    (portfolio : list (Loan F)) (rows : list (ResultRow F)) :
  process_portfolio portfolio = Ok rows ->
  List.length rows = List.length portfolio
  /\ Forall (fun r => (Stage r = 1 \/ Stage r = 2 \/ Stage r = 3)%Z) rows.
Proof.
  intros Hrun. apply process_portfolio_rows in Hrun. split.
  - symmetry. exact (Forall2_length Hrun).
  - induction Hrun as [ | loan row portfolio rows Hrow _ IH]; constructor.
    + apply process_loan_row in Hrow as (_ & Hstage & _).
      exact (assign_stage_range _ _ _ Hstage).
    + exact IH.
Qed.

(** X10.  In any arithmetic, on the rows [process_portfolio] returns the
    summary loop of [main] raises no KeyError: it ends with the dict
    [{1: c1, 2: c2, 3: c3}] where [ck] is the number of rows in stage [k],
    the three counts add up to the number of loans, and the total is the
    ECLs added from 0.0 in the order of the rows. *)
Theorem X10_summary_of_processed_portfolio :
  forall (F : Type) (A : PyFloat F) (portfolio : list (Loan F))
         (rows : list (ResultRow F)),
    process_portfolio portfolio = Ok rows ->
    summary_statistics rows
    = Ok ([(1, stage_count 1 rows); (2, stage_count 2 rows);
           (3, stage_count 3 rows)]%Z,
          fold_left (fun t r => f_add t (ECL r)) rows (f_dec 0 1))
    /\ (stage_count 1 rows + stage_count 2 rows + stage_count 3 rows
        = Z.of_nat (List.length portfolio))%Z.
Proof.
  intros F A portfolio rows Hrun.
  apply process_portfolio_stages in Hrun as [Hlen Hstages]. split.
  - unfold summary_statistics. now rewrite (summary_loop rows Hstages).
  - rewrite <- Hlen. now apply stage_counts_total.
Qed.

(** The two sample loans: one in stage 1, none in stage 2, one in stage 3,
    and a total of 981.00 + 88295.04. *)
Lemma X10_witness_sample_portfolio :
  exists rows,
    process_portfolio sample_portfolio = Ok rows
    /\ summary_statistics rows = Ok ([(1, 1); (2, 0); (3, 1)]%Z, 89276.04000).
Proof.
  eexists. split.
  - vm_compute. reflexivity.
  - etransitivity.
    + apply (X10_summary_of_processed_portfolio Q exact sample_portfolio).
      vm_compute. reflexivity.
    + vm_compute. reflexivity.
Defined.

(** X11.  In any arithmetic, a row whose stage is not 1, 2 or 3, met after
    rows whose stages are, makes the summary loop raise KeyError for that
    stage: the counts and the total are lost. *)
Theorem X11_summary_unknown_stage :
  forall (F : Type) (A : PyFloat F) (before after : list (ResultRow F))
         (row : ResultRow F),
    Forall (fun r => (Stage r = 1 \/ Stage r = 2 \/ Stage r = 3)%Z) before ->
    ~ (Stage row = 1 \/ Stage row = 2 \/ Stage row = 3)%Z ->
    summary_statistics (before ++ row :: after)
    = Raise (KeyError (NilZero.string_of_int (Z.to_int (Stage row)))).
Proof.
  intros F A before after row Hbefore Hrow.
  unfold summary_statistics. rewrite for_each_app.
  rewrite (summary_loop before Hbefore). cbn [bind for_each].
  now rewrite (increment_unknown _ _ _ _ Hrow).
Qed.

(** A row in stage 4 after a row in stage 1: KeyError 4. *)
Lemma X11_witness_stage_4 :
  summary_statistics
    ([ {| out_Loan_ID := "L0001"; out_Sector := "Retail";
          out_Principal := 100000; out_Initial_PD := 0.02;
          out_Current_PD := 0.02; out_Maturity_Years := 5; out_EIR := 0.03;
          out_LGD := 0.45; Stage := 1; ECL := 981.00 |} ]
       ++ {| out_Loan_ID := "L0002"; out_Sector := "Energy";
             out_Principal := 250000; out_Initial_PD := 0.05;
             out_Current_PD := 0.60; out_Maturity_Years := 3; out_EIR := 0.04;
             out_LGD := 0.40; Stage := 4; ECL := 88295.04 |} :: [])
  = Raise (KeyError "4").
Proof.
  apply (X11_summary_unknown_stage Q exact).
  - repeat constructor.
  - cbn. lia.
Defined.

(** ** The indicators of the dashboard *)

(** X13.  The indicators of [create_kpi_cards] and of [create_dashboard]
    never raise, under binary64 and in exact arithmetic, whatever [sum]
    returns: the division is only reached with a total exposure above 0,
    which is not a zero divisor.  The total of the provisions is the sum of
    the ECLs; the coverage ratio is the quotient of the two sums times 100
    when the total exposure is above 0, and 0 otherwise, that is for an
    exposure that is zero, negative or [nan]. *)
Theorem X13_coverage_ratio_never_divides_by_zero :
  (forall (py_sum : list float -> float) (data : list (ResultRow float)),
      let total_provisions := py_sum (map (@ECL float) data) in
      let total_exposure := py_sum (map (@out_Principal float) data) in
      kpi_values py_sum data
      = Ok (total_provisions,
            if PrimFloat.ltb 0 total_exposure
            then PrimFloat.mul (PrimFloat.div total_provisions total_exposure) 100
            else 0%float))
  /\ (forall (py_sum : list Q -> Q) (data : list (ResultRow Q)),
         let total_provisions := py_sum (map (@ECL Q) data) in
         let total_exposure := py_sum (map (@out_Principal Q) data) in
         kpi_values py_sum data
         = Ok (total_provisions,
               if Qltb (0 # 10) total_exposure
               then total_provisions / total_exposure * (100 # 1)
               else 0 # 10)).
Proof.
  split; intros py_sum data total_provisions total_exposure;
    unfold kpi_values; fold total_provisions; fold total_exposure.
  - cbn [f_lt f_dec f_mul binary64]. change (b64_dec 0 1) with 0%float.
    assert (E100 : b64_dec 100 0 = 100%float) by (vm_compute; reflexivity).
    rewrite E100.
    destruct (PrimFloat.ltb 0 total_exposure) eqn:Hpos; [ | reflexivity].
    unfold truediv. cbn [f_is_zero f_div binary64].
    rewrite (b64_positive_not_zero _ Hpos). reflexivity.
  - exact_arith. change (Qdec 0 1) with (0 # 10).
    change (Qdec 100 0) with (100 # 1).
    destruct (Qltb (0 # 10) total_exposure) eqn:Hpos; [ | reflexivity].
    unfold truediv. exact_arith.
    assert (Hnz : Qis_zero total_exposure = false).
    { apply Qis_zero_false. apply Qltb_lt in Hpos. intros Hz.
      rewrite Hz in Hpos. discriminate Hpos. }
    rewrite Hnz. reflexivity.
Qed.

(** ** The bars of the comparison chart *)

Lemma str_lt_trans (a b c : string) : str_lt a b -> str_lt b c -> str_lt a c.
Proof.
  unfold str_lt. intros Hab Hbc.
  apply OrderedTypeEx.String_as_OT.cmp_lt.
  apply OrderedTypeEx.String_as_OT.lt_trans with b;
    apply OrderedTypeEx.String_as_OT.cmp_lt; assumption.
Qed.

Lemma str_lt_irrefl (a : string) : ~ str_lt a a.
Proof.
  unfold str_lt. intros Ha.
  pose proof (String.compare_antisym a a) as Hanti.
  rewrite Ha in Hanti. discriminate.
Qed.

Lemma insert_sorted_In (s x : string) (l : list string) :
  In x (insert_sorted s l) <-> x = s \/ In x l.
Proof.
  induction l as [ | y l IH]; cbn [insert_sorted].
  - cbn. intuition congruence.
  - destruct (String.compare s y) eqn:Hc.
    + apply String.compare_eq_iff in Hc. subst y. cbn. intuition congruence.
    + cbn. intuition congruence.
    + cbn [In]. rewrite IH. intuition congruence.
Qed.

Lemma sorted_set_In (xs : list string) (x : string) :
  In x (sorted_set xs) <-> In x xs.
Proof.
  induction xs as [ | y xs IH]; cbn [sorted_set fold_right].
  - reflexivity.
  - fold (sorted_set xs). rewrite insert_sorted_In, IH. cbn. intuition congruence.
Qed.

Lemma insert_sorted_sorted (s : string) (l : list string) :
  StronglySorted str_lt l -> StronglySorted str_lt (insert_sorted s l).
Proof.
  induction l as [ | y l IH]; intros Hl; cbn [insert_sorted].
  - repeat constructor.
  - inversion Hl as [ | ? ? Hrest Hy]; subst.
    destruct (String.compare s y) eqn:Hc.
    + exact Hl.
    + constructor; [exact Hl | ].
      constructor; [exact Hc | ].
      rewrite Forall_forall in *. intros z Hz.
      apply str_lt_trans with y; [exact Hc | now apply Hy].
    + constructor; [now apply IH | ].
      rewrite Forall_forall in *. intros z Hz.
      apply insert_sorted_In in Hz as [-> | Hz]; [ | now apply Hy].
      unfold str_lt. rewrite String.compare_antisym, Hc. reflexivity.
Qed.

Lemma sorted_set_sorted (xs : list string) : StronglySorted str_lt (sorted_set xs).
Proof.
  induction xs as [ | y xs IH]; cbn [sorted_set fold_right].
  - constructor.
  - apply insert_sorted_sorted, IH.
Qed.

Lemma sorted_NoDup (l : list string) : StronglySorted str_lt l -> NoDup l.
Proof.
  induction 1 as [ | x l _ IH Hx]; constructor; [ | exact IH].
  intros Hin. rewrite Forall_forall in Hx.
  exact (str_lt_irrefl x (Hx x Hin)).
Qed.

Lemma getitem_setitem {V : Type} (d : list (string * V)) (k k' : string) (v : V) :
  getitem (setitem d k v) k' = if String.eqb k k' then Ok v else getitem d k'.
Proof.
  induction d as [ | [k0 v0] d IH]; cbn [setitem getitem].
  - reflexivity.
  - destruct (String.eqb k0 k) eqn:E0; cbn [getitem].
    + apply String.eqb_eq in E0. subst k0.
      destruct (String.eqb k k'); reflexivity.
    + destruct (String.eqb k0 k') eqn:E1.
      * apply String.eqb_eq in E1. subst k'.
        rewrite String.eqb_sym, E0. reflexivity.
      * exact IH.
Qed.

Lemma getitem_comprehension {V : Type} (keys : list string) (v : V) (k : string) :
  In k keys -> getitem (map (fun s => (s, v)) keys) k = Ok v.
Proof.
  induction keys as [ | k0 keys IH]; intros Hin; [destruct Hin | ].
  cbn [map getitem]. destruct (String.eqb k0 k) eqn:E; [reflexivity | ].
  destruct Hin as [-> | Hin]; [ | now apply IH].
  rewrite String.eqb_refl in E. discriminate.
Qed.

(** The bar of a sector, one row more. *)
Lemma sector_bar_snoc (F : Type) (A : PyFloat F) (s : string)
    (losses : list (ResultRow F * F)) (row : ResultRow F) (x : F) :
  sector_bar s (losses ++ [(row, x)])
  = if in_sector s row then f_add (sector_bar s losses) x
    else sector_bar s losses.
Proof.
  unfold sector_bar. rewrite filter_app, map_app, fold_left_app.
  cbn [filter fst]. destruct (in_sector s row); reflexivity.
Qed.

(** What the loop keeps true of a dict: every sector has an entry, the bar
    of the sector for the rows met so far. *)
Lemma bars_step (F : Type) (A : PyFloat F) (sectors : list string)
    (losses : list (ResultRow F * F)) (d : list (string * F))
    (row : ResultRow F) (x : F) :
  (forall s, In s sectors -> getitem d s = Ok (sector_bar s losses)) ->
  forall s, In s sectors ->
    getitem
      (setitem d (out_Sector row)
         (f_add (sector_bar (out_Sector row) losses) x)) s
    = Ok (sector_bar s (losses ++ [(row, x)])).
Proof.
  intros Hinv s Hs. rewrite getitem_setitem, sector_bar_snoc.
  unfold in_sector. destruct (String.eqb (out_Sector row) s) eqn:E.
  - apply String.eqb_eq in E. now subst s.
  - now apply Hinv.
Qed.

Lemma comparison_loop (F : Type) (A : PyFloat F) (sectors : list string)
    (rest : list (ResultRow F)) :
  forall (base downturn : list F)
         (done_base done_downturn : list (ResultRow F * F))
         (ecl_base ecl_downturn : list (string * F)),
    Forall2 (fun row e => base_loss row = Ok e) rest base ->
    Forall2 (fun row e => downturn_loss row = Ok e) rest downturn ->
    (forall r, In r rest -> In (out_Sector r) sectors) ->
    (forall s, In s sectors -> getitem ecl_base s = Ok (sector_bar s done_base)) ->
    (forall s, In s sectors ->
               getitem ecl_downturn s = Ok (sector_bar s done_downturn)) ->
    exists ecl_base' ecl_downturn',
      for_each comparison_row rest (ecl_base, ecl_downturn)
      = Ok (ecl_base', ecl_downturn')
      /\ (forall s, In s sectors ->
                    getitem ecl_base' s
                    = Ok (sector_bar s (done_base ++ combine rest base)))
      /\ (forall s, In s sectors ->
                    getitem ecl_downturn' s
                    = Ok (sector_bar s (done_downturn ++ combine rest downturn))).
Proof.
  induction rest as [ | row rest IH];
    intros base downturn doneb doned db dd Hb Hd Hsec Hib Hid.
  - inversion Hb; inversion Hd; subst. exists db, dd. cbn [combine].
    rewrite !app_nil_r. now repeat split.
  - inversion Hb as [ | ? b ? base' Hrow_b Hrest_b]; subst.
    inversion Hd as [ | ? d ? downturn' Hrow_d Hrest_d]; subst.
    cbn [for_each]. unfold comparison_row at 1.
    fold (base_loss row). fold (downturn_loss row).
    rewrite Hrow_b, Hrow_d. cbn [bind].
    rewrite (Hib _ (Hsec row (or_introl eq_refl))). cbn [bind].
    rewrite (Hid _ (Hsec row (or_introl eq_refl))). cbn [bind].
    destruct (IH base' downturn' (doneb ++ [(row, b)]) (doned ++ [(row, d)])
                (setitem db (out_Sector row)
                   (f_add (sector_bar (out_Sector row) doneb) b))
                (setitem dd (out_Sector row)
                   (f_add (sector_bar (out_Sector row) doned) d)))
      as (db' & dd' & Hrun & Hb' & Hd'); try assumption.
    + intros r Hr. apply Hsec. now right.
    + now apply bars_step.
    + now apply bars_step.
    + exists db', dd'. cbn [combine].
      rewrite <- !app_assoc in Hb', Hd'. now repeat split.
Qed.

Lemma for_each_append_map {A B : Type} (f : A -> result B) (g : A -> B)
    (items : list A) :
  (forall a, In a items -> f a = Ok (g a)) ->
  forall acc : list B,
    for_each (fun ys a => y <- f a ;; Ok (ys ++ [y])) items acc
    = Ok (acc ++ map g items).
Proof.
  induction items as [ | a items IH]; intros Hf acc; cbn [for_each map].
  - now rewrite app_nil_r.
  - rewrite (Hf a (or_introl eq_refl)). cbn [bind].
    rewrite IH by (intros a' Ha'; apply Hf; now right).
    now rewrite <- app_assoc.
Qed.

Lemma losses_of_rows {A B : Type} (f : A -> result B) (l : list A) :
  (forall a, In a l -> exists b, f a = Ok b) ->
  exists lb, Forall2 (fun a b => f a = Ok b) l lb.
Proof.
  induction l as [ | a l IH]; intros Hl.
  - exists []. constructor.
  - destruct (Hl a (or_introl eq_refl)) as [b Hb].
    destruct (IH (fun a' Ha' => Hl a' (or_intror Ha'))) as [lb Hlb].
    exists (b :: lb). now constructor.
Qed.

(** X14.  The data of [create_ecl_comparison_bar], in any arithmetic.  When
    the Base and the Downturn loss of every row are computed, the chart is
    computed: no sector is missing from the two dicts.  Its x axis holds
    the sectors of the data, each once, in increasing order; the Base bar
    of a sector is 0.0 plus the Base losses of the rows of the sector, added
    one after the other in the order of the data, and the Downturn bar the
    same with the Downturn losses.  When the loss of a row cannot be
    computed, the rows before it being computed, the exception of that
    row, of its Base loss first, is the one of the chart. *)
Theorem X14_comparison_bars :
  (forall (F : Type) (A : PyFloat F) (data : list (ResultRow F))
          (base downturn : list F),
      Forall2 (fun row e => base_loss row = Ok e) data base ->
      Forall2 (fun row e => downturn_loss row = Ok e) data downturn ->
      let sectors := sorted_set (map (@out_Sector F) data) in
      create_ecl_comparison_bar data
      = Ok (sectors,
            map (fun s => sector_bar s (combine data base)) sectors,
            map (fun s => sector_bar s (combine data downturn)) sectors)
      /\ StronglySorted str_lt sectors
      /\ NoDup sectors
      /\ (forall s, In s sectors <-> exists r, In r data /\ out_Sector r = s))
  /\ (forall (F : Type) (A : PyFloat F) (before after : list (ResultRow F))
             (row : ResultRow F) (e : exn),
         (forall r, In r before ->
                    (exists b, base_loss r = Ok b)
                    /\ (exists d, downturn_loss r = Ok d)) ->
         base_loss row = Raise e
         \/ ((exists b, base_loss row = Ok b) /\ downturn_loss row = Raise e) ->
         create_ecl_comparison_bar (before ++ row :: after) = Raise e).
Proof.
  split.
  - intros F A data base downturn Hb Hd sectors.
    assert (Hmem : forall s, In s sectors
                             <-> exists r, In r data /\ out_Sector r = s).
    { intros s. unfold sectors. rewrite sorted_set_In, in_map_iff.
      split; intros (r & H1 & H2); exists r; now split. }
    split; [ | split; [apply sorted_set_sorted | split; [ | exact Hmem]]];
      [ | apply sorted_NoDup, sorted_set_sorted].
    destruct (comparison_loop F A sectors data base downturn [] []
                (map (fun s => (s, f_dec 0 1)) sectors)
                (map (fun s => (s, f_dec 0 1)) sectors) Hb Hd)
      as (db & dd & Hrun & Hib & Hid).
    + intros r Hr. apply Hmem. now exists r.
    + intros s Hs. now apply getitem_comprehension.
    + intros s Hs. now apply getitem_comprehension.
    + cbn [app] in Hib, Hid.
      unfold create_ecl_comparison_bar. fold sectors. rewrite Hrun.
      cbn [bind]. unfold heights.
      rewrite (for_each_append_map (getitem db)
                 (fun s => sector_bar s (combine data base)) sectors Hib).
      cbn [bind].
      rewrite (for_each_append_map (getitem dd)
                 (fun s => sector_bar s (combine data downturn)) sectors Hid).
      reflexivity.
  - intros F A before after row e Hbefore Hrow.
    set (sectors := sorted_set (map (@out_Sector F) (before ++ row :: after))).
    assert (Hsec : forall r, In r (before ++ row :: after) ->
                             In (out_Sector r) sectors).
    { intros r Hr. unfold sectors. apply sorted_set_In, in_map. exact Hr. }
    destruct (losses_of_rows base_loss before) as [base Hb].
    { intros r Hr. apply (Hbefore r Hr). }
    destruct (losses_of_rows downturn_loss before) as [downturn Hd].
    { intros r Hr. apply (Hbefore r Hr). }
    destruct (comparison_loop F A sectors before base downturn [] []
                (map (fun s => (s, f_dec 0 1)) sectors)
                (map (fun s => (s, f_dec 0 1)) sectors) Hb Hd)
      as (db & dd & Hrun & Hib & Hid).
    + intros r Hr. apply Hsec, in_or_app. now left.
    + intros s Hs. now apply getitem_comprehension.
    + intros s Hs. now apply getitem_comprehension.
    + unfold create_ecl_comparison_bar. fold sectors.
      rewrite for_each_app, Hrun. cbn [bind for_each].
      unfold comparison_row at 1. fold (base_loss row). fold (downturn_loss row).
      destruct Hrow as [-> | [[b ->] ->]]; reflexivity.
Qed.

(** Under binary64: the two sample rows give the bars of Energy, then those
    of Retail; and a row in stage 2 at the rate -1, whose Base loss divides
    by zero, ends the chart with ZeroDivisionError. *)
Lemma X14_witness_sample_results :
  (exists y_base y_downturn,
      create_ecl_comparison_bar sample_results_b64
      = Ok (["Energy"; "Retail"]%string, y_base, y_downturn))
  /\ create_ecl_comparison_bar
       (sample_results_b64
          ++ {| out_Loan_ID := "L0003"; out_Sector := "SME";
                out_Principal := 5000%float; out_Initial_PD := 0.01%float;
                out_Current_PD := 0.05%float; out_Maturity_Years := 2;
                out_EIR := (-1)%float; out_LGD := 0.45%float;
                Stage := 2; ECL := 0%float |} :: [])
     = Raise ZeroDivisionError.
Proof.
  split.
  - eexists. eexists.
    refine (proj1 (proj1 X14_comparison_bars float binary64 sample_results_b64
                     _ _ _ _)).
    + repeat constructor; vm_compute; reflexivity.
    + repeat constructor; vm_compute; reflexivity.
  - apply (proj2 X14_comparison_bars float binary64).
    + intros r [<- | [<- | []]]; split; eexists; vm_compute; reflexivity.
    + left. vm_compute. reflexivity.
Defined.

(** ** The lists of the sunburst chart *)

Lemma key_eqb_eq (k k' : string * Z) : key_eqb k k' = true <-> k = k'.
Proof.
  destruct k as [s z], k' as [s' z']. unfold key_eqb. cbn [fst snd].
  rewrite andb_true_iff, String.eqb_eq, Z.eqb_eq.
  split; [intros [-> ->]; reflexivity | intros [= -> ->]; now split].
Qed.

Lemma agg_get_set {V : Type} (agg : list (string * Z * V)) (k k' : string * Z)
    (v : V) :
  agg_get (agg_set agg k v) k' = if key_eqb k k' then Some v else agg_get agg k'.
Proof.
  induction agg as [ | [k0 v0] agg IH]; cbn [agg_set agg_get].
  - reflexivity.
  - destruct (key_eqb k0 k) eqn:E0; cbn [agg_get].
    + apply key_eqb_eq in E0. subst k0.
      destruct (key_eqb k k'); reflexivity.
    + destruct (key_eqb k0 k') eqn:E1.
      * apply key_eqb_eq in E1. subst k'.
        destruct (key_eqb k k0) eqn:E2; [ | reflexivity].
        apply key_eqb_eq in E2. subst k0.
        assert (Hrefl : key_eqb k k = true) by now apply key_eqb_eq.
        rewrite Hrefl in E0. discriminate.
      * exact IH.
Qed.

Lemma filter_none {A : Type} (p : A -> bool) (l : list A) :
  existsb p l = false -> filter p l = [].
Proof.
  induction l as [ | a l IH]; cbn [existsb filter]; [reflexivity | ].
  destruct (p a); cbn [orb]; [discriminate | exact IH].
Qed.

(** The total of a key, one row more. *)
Lemma key_total_snoc (F : Type) (A : PyFloat F) (key : string * Z)
    (done : list (ResultRow F)) (row : ResultRow F) :
  key_total key (done ++ [row])
  = if has_key key row then f_add (key_total key done) (out_Principal row)
    else key_total key done.
Proof.
  unfold key_total. rewrite filter_app, map_app, fold_left_app.
  cbn [filter]. destruct (has_key key row); reflexivity.
Qed.

(** What the aggregation loop keeps true of [agg]: a key is in the dict when
    a row met so far has it, with the total of these rows. *)
Lemma aggregate_row_step (F : Type) (A : PyFloat F) (done : list (ResultRow F))
    (agg : list (string * Z * F)) (row : ResultRow F) :
  (forall key, agg_get agg key
               = if existsb (has_key key) done
                 then Some (key_total key done) else None) ->
  forall key, agg_get (aggregate_row agg row) key
              = if existsb (has_key key) (done ++ [row])
                then Some (key_total key (done ++ [row])) else None.
Proof.
  intros Hinv key. unfold aggregate_row. rewrite agg_get_set.
  rewrite existsb_app, key_total_snoc. cbn [existsb]. rewrite orb_false_r.
  unfold has_key at 2 3.
  assert (Hdefault : match agg_get agg (out_Sector row, Stage row) with
                     | Some v => v
                     | None => f_dec 0 1
                     end = key_total (out_Sector row, Stage row) done).
  { rewrite Hinv.
    destruct (existsb (has_key (out_Sector row, Stage row)) done) eqn:E;
      [reflexivity | ].
    unfold key_total. now rewrite (filter_none _ _ E). }
  rewrite Hdefault.
  destruct (key_eqb (out_Sector row, Stage row) key) eqn:E.
  - apply key_eqb_eq in E. subst key. now rewrite orb_true_r.
  - rewrite orb_false_r. apply Hinv.
Qed.

Lemma aggregate_loop (F : Type) (A : PyFloat F) (rest : list (ResultRow F)) :
  forall (done : list (ResultRow F)) (agg : list (string * Z * F)),
    (forall key, agg_get agg key
                 = if existsb (has_key key) done
                   then Some (key_total key done) else None) ->
    forall key, agg_get (fold_left aggregate_row rest agg) key
                = if existsb (has_key key) (done ++ rest)
                  then Some (key_total key (done ++ rest)) else None.
Proof.
  induction rest as [ | row rest IH]; intros done agg Hinv; cbn [fold_left].
  - now rewrite app_nil_r.
  - replace (done ++ row :: rest) with ((done ++ [row]) ++ rest)
      by now rewrite <- app_assoc.
    apply IH. now apply aggregate_row_step.
Qed.

Lemma sector_entries (F : Type) (A : PyFloat F) (total : string -> F)
    (sectors : list string) :
  forall (labels parents : list string) (values : list F),
    fold_left (fun chart s => append_entry chart s "Portfolio" (total s))
      sectors (labels, parents, values)
    = (labels ++ sectors,
       parents ++ map (fun _ => "Portfolio"%string) sectors,
       values ++ map total sectors).
Proof.
  induction sectors as [ | s sectors IH]; intros labels parents values;
    cbn [fold_left map].
  - now rewrite !app_nil_r.
  - unfold append_entry at 2. rewrite IH, <- !app_assoc. reflexivity.
Qed.

(** The test and the value of a leaf, read in [agg]. *)
Lemma stage_entries (F : Type) (A : PyFloat F)
    (leaf_label : string -> Z -> string) (agg : list (string * Z * F))
    (keep : string * Z -> bool) (value : string * Z -> F) (s : string)
    (stages : list Z) :
  (forall key, match agg_get agg key with
               | Some v => keep key = f_lt (f_dec 0 1) v /\ (keep key = true -> value key = v)
               | None => keep key = false
               end) ->
  forall (labels parents : list string) (values : list F),
    fold_left (append_stage leaf_label agg s) stages (labels, parents, values)
    = (labels ++ map (fun k => leaf_label (fst k) (snd k))
                   (filter keep (map (pair s) stages)),
       parents ++ map fst (filter keep (map (pair s) stages)),
       values ++ map value (filter keep (map (pair s) stages))).
Proof.
  intros Hagg.
  induction stages as [ | stage stages IH]; intros labels parents values;
    cbn [fold_left map filter].
  - now rewrite !app_nil_r.
  - unfold append_stage at 2. specialize (Hagg (s, stage)).
    destruct (agg_get agg (s, stage)) as [v | ].
    + destruct Hagg as [Hkeep Hvalue]. rewrite Hkeep.
      destruct (f_lt (f_dec 0 1) v) eqn:Hv.
      * unfold append_entry. rewrite IH.
        cbn [map fst snd]. rewrite (Hvalue Hkeep), <- !app_assoc. reflexivity.
      * apply IH.
    + rewrite Hagg. apply IH.
Qed.

Lemma leaf_entries (F : Type) (A : PyFloat F)
    (leaf_label : string -> Z -> string) (agg : list (string * Z * F))
    (keep : string * Z -> bool) (value : string * Z -> F)
    (sectors : list string) :
  (forall key, match agg_get agg key with
               | Some v => keep key = f_lt (f_dec 0 1) v /\ (keep key = true -> value key = v)
               | None => keep key = false
               end) ->
  forall (labels parents : list string) (values : list F),
    fold_left
      (fun chart s =>
         fold_left (append_stage leaf_label agg s) [1; 2; 3]%Z chart)
      sectors (labels, parents, values)
    = (labels ++ map (fun k => leaf_label (fst k) (snd k))
                   (filter keep
                      (flat_map (fun s => map (pair s) [1; 2; 3]%Z) sectors)),
       parents ++ map fst
                    (filter keep
                       (flat_map (fun s => map (pair s) [1; 2; 3]%Z) sectors)),
       values ++ map value
                   (filter keep
                      (flat_map (fun s => map (pair s) [1; 2; 3]%Z) sectors))).
Proof.
  intros Hagg.
  set (step := fun chart s =>
                 fold_left (append_stage leaf_label agg s) [1; 2; 3]%Z chart).
  induction sectors as [ | s sectors IH]; intros labels parents values.
  - cbn [fold_left flat_map filter map]. now rewrite !app_nil_r.
  - change (fold_left step (s :: sectors) (labels, parents, values))
      with (fold_left step sectors (step (labels, parents, values) s)).
    unfold step at 2.
    rewrite (stage_entries F A leaf_label agg keep value s [1; 2; 3]%Z Hagg).
    cbn [flat_map].
    rewrite IH, filter_app, !map_app, <- !app_assoc. reflexivity.
Qed.

(** X15.  The three lists of the sunburst chart of [create_sunburst] and of
    [create_dashboard], in any arithmetic and whatever [sum] returns.  They
    start with the root "Portfolio", without parent, valued at the sum of
    the principals; then come the sectors of the data, each once, in
    increasing order, under "Portfolio", each valued at the sum of the
    principals of its rows; then the leaves, sector by sector and stage by
    stage, for the keys (sector, stage) with stage 1, 2 or 3 that a row of
    the data has and whose total is above 0, each under its sector and
    valued at 0.0 plus the principals of the rows of the key, added one
    after the other in the order of the data.  A row in another stage counts
    in the root and in its sector, and in no leaf. *)
Theorem X15_sunburst_lists :
  forall (F : Type) (A : PyFloat F) (py_sum : list F -> F)
         (leaf_label : string -> Z -> string) (data : list (ResultRow F)),
    let sectors := sorted_set (map (@out_Sector F) data) in
    let keys := leaf_keys data in
    sunburst_lists py_sum leaf_label data
    = ("Portfolio"%string :: sectors
         ++ map (fun k => leaf_label (fst k) (snd k)) keys,
       ""%string :: map (fun _ => "Portfolio"%string) sectors ++ map fst keys,
       py_sum (map (@out_Principal F) data)
         :: map (fun s => py_sum (map (@out_Principal F)
                                    (filter (in_sector s) data))) sectors
         ++ map (fun k => key_total k data) keys)
    /\ StronglySorted str_lt sectors
    /\ NoDup sectors
    /\ (forall s, In s sectors <-> exists r, In r data /\ out_Sector r = s)
    /\ (forall k, In k keys ->
                  In (fst k) sectors
                  /\ (snd k = 1 \/ snd k = 2 \/ snd k = 3)%Z
                  /\ exists r, In r data /\ out_Sector r = fst k
                               /\ Stage r = snd k).
Proof.
  intros F A py_sum leaf_label data sectors keys.
  split; [ | split; [apply sorted_set_sorted | split;
                      [apply sorted_NoDup, sorted_set_sorted | split]]].
  - unfold sunburst_lists. fold sectors.
    rewrite (sector_entries F A
               (fun s => py_sum (map (@out_Principal F)
                                   (filter (in_sector s) data))) sectors).
    rewrite (leaf_entries F A leaf_label (fold_left aggregate_row data [])
               (fun key => existsb (has_key key) data
                           && f_lt (f_dec 0 1) (key_total key data))
               (fun key => key_total key data) sectors).
    + reflexivity.
    + intros key.
      rewrite (aggregate_loop F A data [] [] (fun _ => eq_refl) key).
      cbn [app]. destruct (existsb (has_key key) data); cbn [andb].
      * split; [reflexivity | reflexivity].
      * reflexivity.
  - intros s. unfold sectors. rewrite sorted_set_In, in_map_iff.
    split; intros (r & H1 & H2); exists r; now split.
  - intros [s stage] Hk. unfold keys, leaf_keys in Hk.
    apply filter_In in Hk as [Hk Hkeep]. fold sectors in Hk.
    apply in_flat_map in Hk as (s' & Hs' & Hk).
    apply in_map_iff in Hk as (stage' & [= -> ->] & Hstage).
    cbn [fst snd]. split; [exact Hs' | split].
    + cbn in Hstage. intuition.
    + apply andb_true_iff in Hkeep as [Hex _].
      apply existsb_exists in Hex as (r & Hr & Hkey).
      apply key_eqb_eq in Hkey. injection Hkey as Hsec Hst.
      exists r. now repeat split.
Qed.

(** Under binary64, with [sum] adding from left to right: the two sample
    rows followed by a row of Retail in stage 4.  The root holds 360000 and
    Retail 110000, the row of stage 4 included; the leaves are those of
    Energy in stage 3 and of Retail in stage 1, worth 250000 and 100000. *)
Lemma X15_witness_stage_4_row :
  let py_sum := fun xs => fold_left PrimFloat.add xs 0%float in
  let data :=
    sample_results_b64
      ++ [ {| out_Loan_ID := "L0005"; out_Sector := "Retail";
              out_Principal := 10000%float; out_Initial_PD := 0.02%float;
              out_Current_PD := 0.02%float; out_Maturity_Years := 1;
              out_EIR := 0.03%float; out_LGD := 0.45%float;
              Stage := 4; ECL := 0%float |} ] in
  create_sunburst py_sum data
  = (["Portfolio"; "Energy"; "Retail"; "Stage 3"; "Stage 1"]%string,
     [""; "Portfolio"; "Portfolio"; "Energy"; "Retail"]%string,
     [360000; 250000; 110000; 250000; 100000]%float)
  /\ create_dashboard_sunburst py_sum data
     = (["Portfolio"; "Energy"; "Retail"; "Energy - Stage 3";
         "Retail - Stage 1"]%string,
        [""; "Portfolio"; "Portfolio"; "Energy"; "Retail"]%string,
        [360000; 250000; 110000; 250000; 100000]%float).
Proof.
  intros py_sum data. split.
  - unfold create_sunburst.
    rewrite (proj1 (X15_sunburst_lists float binary64 py_sum _ data)).
    vm_compute. reflexivity.
  - unfold create_dashboard_sunburst.
    rewrite (proj1 (X15_sunburst_lists float binary64 py_sum _ data)).
    vm_compute. reflexivity.
Defined.
